(** * NaiveBayes.h: Gaussian naive Bayes scoring over a training list

    A shallow embedding of [src/NaiveBayes.h].  C [double]s are the
    primitive binary64 floats of Rocq, so that division of zero by zero,
    comparisons with a not-a-number and rounding behave as they do in the
    compiled program.  The singly linked [TrainingItem] list is a [list];
    [printf] appends to an output log that is threaded through the calls. *)

From Stdlib Require Import ZArith List String Ascii Bool Lia Uint63 Floats.
Import ListNotations.

Set Warnings "-inexact-float".

Local Open Scope float_scope.

(** ** The C library as the program uses it *)

(** [strcmp]: the sign of the first differing byte, 0 for equal strings. *)
Definition strcmp (a b : string) : Z :=
  match String.compare a b with
  | Eq => 0%Z
  | Lt => (-1)%Z
  | Gt => 1%Z
  end.

(** A C scalar used as a condition: a double is true unless it compares
    equal to zero (a not-a-number is true, a negative zero is false). *)
Definition truthy (x : float) : bool := negb (x =? 0).

(** [x++] on a double. *)
Definition incr (x : float) : float := x + 1.

(** [exp] and [pow] are the functions of [math.h] whose results are the
    platform's: the C standard does not fix their rounding. *)
Class LibM := {
  exp : float -> float;
  pow : float -> float -> float
}.

(** [pow(x, 2)], as the header calls it. *)
Definition pow2 {M : LibM} (x : float) : float := pow x 2.

(** What is asked of the platform's [exp]: a not-a-number goes through it,
    and it never yields a negative number. *)
Class LibM_Laws (M : LibM) : Prop := {
  exp_nan : exp nan = nan;
  exp_nonneg : forall x, (exp x <? 0) = false
}.

(** What is asked of the platform's [pow] at the exponent 2: a not-a-number
    goes through it, and the square of an integer of at most 26 bits, which
    a double holds exactly, is that square (as for every [pow] whose error
    stays below one unit in the last place). *)
Class Pow_Laws (M : LibM) : Prop := {
  pow_nan : pow nan 2 = nan;
  pow_small_integer :
    forall n : Z,
      (0 <= n <= 2 ^ 26)%Z ->
      pow (of_uint63 (Uint63.of_Z n)) 2
      = of_uint63 (Uint63.of_Z n) * of_uint63 (Uint63.of_Z n)
      /\ pow (- of_uint63 (Uint63.of_Z n)) 2
         = of_uint63 (Uint63.of_Z n) * of_uint63 (Uint63.of_Z n)
}.

(** ** Constants *)

(** [#define PI 3.14159] of the header; no function below refers to it. *)
Definition PI : float := 3.14159.

(** [CV_PI] of OpenCV's [cxtypes.h], [3.1415926535897932384626433832795]:
    the double nearest to pi. *)
Definition CV_PI : float := 0x1.921fb54442d18p+1.

Definition NCLASSES : Z := 7.

(** Modelled from the spec: the attribute selectors are declared in
    [TrainingDataLinkedList.h], which is not under src/.  The values are
    those of the header's comments (0: Hue, 1: Saturation, 2: Value,
    3: Compactness), also the indices into [CvScalar.val]; texture is the
    fifth feature kind. *)
Definition HUE : Z := 0.
Definition SATURATION : Z := 1.
Definition VALUE : Z := 2.
Definition COMPACTNESS : Z := 3.
Definition TEXTURE : Z := 4.

(** ** Data *)

(** Modelled from the spec: [TrainingItem] is declared in
    [TrainingDataLinkedList.h]; a record carries its class label and the
    five numeric feature values the functions read ([p_next] is the tail
    of the list). *)
Record TrainingItem := mkTrainingItem {
  fruitName : string;
  h : float;
  s : float;
  v : float;
  c : float;
  t : float
}.

(** [CvScalar]: four doubles, [val[0..3]]. *)
Record CvScalar := cvScalar {
  val0 : float;
  val1 : float;
  val2 : float;
  val3 : float
}.

Definition val (x : CvScalar) (i : Z) : float :=
  if (i =? 0)%Z then val0 x
  else if (i =? 1)%Z then val1 x
  else if (i =? 2)%Z then val2 x
  else val3 x.

Record HSV_Range := mkRange {
  class : string;
  h1 : Z; h2 : Z; h3 : Z; h4 : Z;
  s1 : Z; s2 : Z;
  v1 : Z; v2 : Z
}.

(** The result collection: (label, score) pairs; [NULL] is the empty one. *)
Definition Posteriors := list (string * float).

(** Modelled from the spec: [addPosterior] is defined outside src/; each
    (label, score) pair is appended to the result collection, so that the
    collection keeps the order of the candidate list. *)
Definition addPosterior (post : Posteriors) (name : string) (p : float)
  : Posteriors :=
  post ++ [(name, p)].

(** ** Output and failure *)

Inductive Arg :=
| ArgS (x : string)
| ArgF (x : float).

(** One call of [printf]: the format and its arguments. *)
Inductive Output :=
| Printf (fmt : string) (args : list Arg).

(** A computation reads and extends the output written so far, and has no
    result when it reads outside an array. *)
Definition IO (A : Type) : Type := list Output -> option (A * list Output).

Definition ret {A} (x : A) : IO A := fun out => Some (x, out).

Definition bind {A B} (m : IO A) (k : A -> IO B) : IO B :=
  fun out =>
    match m out with
    | Some (x, out') => k x out'
    | None => None
    end.

Definition printf (fmt : string) (args : list Arg) : IO unit :=
  fun out => Some (tt, out ++ [Printf fmt args]).

(** [a[i]] on an array of known extent. *)
Definition index {A} (a : list A) (i : Z) : IO A :=
  fun out =>
    if (i <? 0)%Z then None
    else match nth_error a (Z.to_nat i) with
         | Some x => Some (x, out)
         | None => None
         end.

Declare Scope io_scope.
Delimit Scope io_scope with io.
Notation "x <- m ;; k" := (bind m (fun x => k))
  (at level 61, m at next level, right associativity) : io_scope.
Notation "m ;; k" := (bind m (fun _ => k))
  (at level 61, right associativity) : io_scope.

(** ** The functions of NaiveBayes.h *)

Section Mean.
Variable fruitName' : string.
Variable attr : Z.

(** The condition of the [if] in the loop of [calcHSVCT_Mean]. *)
Definition Mean_valid (item : TrainingItem) : bool :=
  (strcmp (fruitName item) fruitName' =? 0)%Z
  && truthy (h item) && truthy (s item) && truthy (v item)
  && truthy (t item).

(** The [if]/[else if] chain adding the selected field to [mean]. *)
Definition Mean_add (mean : float) (item : TrainingItem) : float :=
  if (HUE =? attr)%Z then mean + h item
  else if (SATURATION =? attr)%Z then mean + s item
  else if (VALUE =? attr)%Z then mean + v item
  else if (COMPACTNESS =? attr)%Z then mean + c item
  else if (TEXTURE =? attr)%Z then mean + t item
  else mean.

(** The [while] loop: the state is [(mean, divisor)]. *)
Fixpoint Mean_loop (p_current_item : list TrainingItem)
    (mean divisor : float) : float * float :=
  match p_current_item with
  | [] => (mean, divisor)
  | item :: p_next =>
      if Mean_valid item
      then Mean_loop p_next (Mean_add mean item) (incr divisor)
      else Mean_loop p_next mean divisor
  end.

Definition calcHSVCT_Mean (p_head : list TrainingItem) : float :=
  let '(mean, divisor) := Mean_loop p_head 0 0 in
  if 0 <? divisor then mean / divisor else mean.
End Mean.

Section SD.
Context {M : LibM}.
Variable fruitName' : string.
Variable attr : Z.

(** The condition of the [if] in the loop of [calcHSVCT_SD]. *)
Definition SD_valid (item : TrainingItem) : bool :=
  (strcmp (fruitName item) fruitName' =? 0)%Z
  && truthy (h item) && truthy (s item) && truthy (v item)
  && truthy (c item) && truthy (t item).

Definition SD_add (avg sumOfSqDiff : float) (item : TrainingItem) : float :=
  if (HUE =? attr)%Z then sumOfSqDiff + pow2 (h item - avg)
  else if (SATURATION =? attr)%Z then sumOfSqDiff + pow2 (s item - avg)
  else if (VALUE =? attr)%Z then sumOfSqDiff + pow2 (v item - avg)
  else if (COMPACTNESS =? attr)%Z then sumOfSqDiff + pow2 (c item - avg)
  else if (TEXTURE =? attr)%Z then sumOfSqDiff + pow2 (t item - avg)
  else sumOfSqDiff.

(** The [while] loop: the state is [(sumOfSqDiff, divisor)]. *)
Fixpoint SD_loop (avg : float) (p_current_item : list TrainingItem)
    (sumOfSqDiff divisor : float) : float * float :=
  match p_current_item with
  | [] => (sumOfSqDiff, divisor)
  | item :: p_next =>
      if SD_valid item
      then SD_loop avg p_next (SD_add avg sumOfSqDiff item) (incr divisor)
      else SD_loop avg p_next sumOfSqDiff divisor
  end.

Definition calcHSVCT_SD (p_head : list TrainingItem) : float :=
  let avg := calcHSVCT_Mean fruitName' attr p_head in
  let '(sumOfSqDiff, divisor) := SD_loop avg p_head 0 0 in
  sqrt (sumOfSqDiff / divisor).
End SD.

Section Density.
Context {M : LibM}.

Definition calcHSVCT_PDF (p_head : list TrainingItem) (fruitName' : string)
    (attr : Z) (val' : float) : float :=
  let mean := calcHSVCT_Mean fruitName' attr p_head in
  let sd := calcHSVCT_SD fruitName' attr p_head in
  if 0 <? sd then
    let a := 1 / (sd * sqrt (2 * CV_PI)) in
    let b := exp (((-1) * pow2 (val' - mean)) / (2 * pow2 sd)) in
    a * b
  else 0.

Local Open Scope io_scope.

Definition calcPosterior (tDataHead : list TrainingItem) (class' : string)
    (sampleHSV : CvScalar) (sampleC texture : float) : IO float :=
  let pH := calcHSVCT_PDF tDataHead class' HUE (val sampleHSV HUE) in
  let pS := calcHSVCT_PDF tDataHead class' SATURATION
              (val sampleHSV SATURATION) in
  let pV := calcHSVCT_PDF tDataHead class' VALUE (val sampleHSV VALUE) in
  let pC := calcHSVCT_PDF tDataHead class' COMPACTNESS sampleC in
  let pT := calcHSVCT_PDF tDataHead class' TEXTURE texture in
  printf "P(hue|%s) %f, P(sat|%s) %f, P(val|%s) %f, P(c|%s) %f, P(t|%s) %f\n"
    [ArgS class'; ArgF pH; ArgS class'; ArgF pS; ArgS class'; ArgF pV;
     ArgS class'; ArgF pC; ArgS class'; ArgF pT] ;;
  let post := pH * pS * pV * pC in
  printf "posterior(%s) = %0.80f\n" [ArgS class'; ArgF post] ;;
  ret post.

(** The [for] loop of [calcPosteriors]; [n] is [NCLASSES - class']. *)
Fixpoint calcPosteriors_loop (n : nat) (class' : Z)
    (tData : list TrainingItem) (classes : list HSV_Range)
    (hsvSample : CvScalar) (cSample texture : float) (post : Posteriors)
    : IO Posteriors :=
  match n with
  | O => ret post
  | S n' =>
      r <- index classes class' ;;
      pProb <- calcPosterior tData (class r) hsvSample cSample texture ;;
      calcPosteriors_loop n' (class' + 1) tData classes hsvSample cSample
        texture (addPosterior post (class r) pProb)
  end.

Definition calcPosteriors (tData : list TrainingItem)
    (classes : list HSV_Range) (hsvSample : CvScalar)
    (cSample texture : float) : IO Posteriors :=
  calcPosteriors_loop (Z.to_nat (NCLASSES - 0)) 0 tData classes hsvSample
    cSample texture [].
End Density.

(** ** A reference [exp] and [pow]

    For [exp]: scaling by 2^20, the Taylor polynomial of degree five and
    twenty squarings: accurate to about ten decimal digits, enough to run
    the program on concrete samples.  The special cases are those of
    Annex F of the C standard.  For [pow]: the exponents 0, 1 and 2 by
    multiplication; the header raises to the power 2 only. *)

Fixpoint sqr_iter (n : nat) (z : float) : float :=
  match n with
  | O => z
  | S n' => sqr_iter n' (z * z)
  end.

Definition ref_exp (x : float) : float :=
  if is_nan x then nan
  else if x <? -746 then 0
  else if 710 <? x then infinity
  else
    let y := x / 1048576 in
    let p := 1 + y * (1 + y / 2 * (1 + y / 3 * (1 + y / 4 * (1 + y / 5)))) in
    let w := sqr_iter 19 p in
    w * w.

Definition ref_pow (x y : float) : float :=
  if y =? 0 then 1
  else if y =? 1 then x
  else if y =? 2 then x * x
  else nan.

Definition refLibM : LibM := {| exp := ref_exp; pow := ref_pow |}.

(** ** The specification's vocabulary *)

Inductive FeatureKind := Hue | Saturation | Value | Compactness | Texture.

Definition selector (k : FeatureKind) : Z :=
  match k with
  | Hue => HUE
  | Saturation => SATURATION
  | Value => VALUE
  | Compactness => COMPACTNESS
  | Texture => TEXTURE
  end.

Definition feature_value (k : FeatureKind) (item : TrainingItem) : float :=
  match k with
  | Hue => h item
  | Saturation => s item
  | Value => v item
  | Compactness => c item
  | Texture => t item
  end.

(** A selector that names none of the five feature kinds. *)
Definition unknown_selector (attr : Z) : Prop :=
  attr <> HUE /\ attr <> SATURATION /\ attr <> VALUE
  /\ attr <> COMPACTNESS /\ attr <> TEXTURE.

(** A feature value is present when it is not zero. *)
Definition present (x : float) : bool := negb (x =? 0).

(** The validity guard of the mean: hue, saturation, value and texture. *)
Definition guard4 (item : TrainingItem) : bool :=
  present (h item) && present (s item) && present (v item)
  && present (t item).

(** The selection of the specification's [mean]: exact label match and the
    validity guard. *)
Definition spec_selected (classLabel : string) (item : TrainingItem) : bool :=
  String.eqb (fruitName item) classLabel && guard4 item.

(** The running sum and the running count, as doubles. *)
Definition running_sum (xs : list float) : float := fold_left add xs 0.
Definition running_count (n : nat) : float := Nat.iter n incr 0.

(** A count of records as a double: the conversion of the integer. *)
Definition double_of_count (n : nat) : float :=
  of_uint63 (Uint63.of_Z (Z.of_nat n)).

(** [mean] as the specification words it: sum over count of the selected
    records, 0.0 when nothing is selected. *)
Definition spec_mean (records : list TrainingItem) (classLabel : string)
    (k : FeatureKind) : float :=
  let selected := filter (spec_selected classLabel) records in
  match selected with
  | [] => 0
  | _ :: _ =>
      running_sum (map (feature_value k) selected)
      / running_count (List.length selected)
  end.

(** [standardDeviation] as the specification words it: the square root of
    the average squared deviation from the mean over the subset the mean
    selects. *)
Definition spec_standardDeviation {M : LibM} (records : list TrainingItem)
    (classLabel : string) (k : FeatureKind) : float :=
  let selected := filter (spec_selected classLabel) records in
  let m := spec_mean records classLabel k in
  sqrt (running_sum (map (fun x => pow2 (feature_value k x - m)) selected)
        / running_count (List.length selected)).

(** What one call of [calcPosterior] prints. *)
Definition posterior_output (class' : string) (pH pS pV pC pT post : float)
  : list Output :=
  [Printf
     "P(hue|%s) %f, P(sat|%s) %f, P(val|%s) %f, P(c|%s) %f, P(t|%s) %f\n"
     [ArgS class'; ArgF pH; ArgS class'; ArgF pS; ArgS class'; ArgF pV;
      ArgS class'; ArgF pC; ArgS class'; ArgF pT];
   Printf "posterior(%s) = %0.80f\n" [ArgS class'; ArgF post]].

Section PosteriorVocabulary.
Context {M : LibM}.

(** The product of the four densities for hue, saturation, value and
    compactness. *)
Definition posterior_score (tData : list TrainingItem) (class' : string)
    (sampleHSV : CvScalar) (sampleC : float) : float :=
  calcHSVCT_PDF tData class' HUE (val sampleHSV HUE)
  * calcHSVCT_PDF tData class' SATURATION (val sampleHSV SATURATION)
  * calcHSVCT_PDF tData class' VALUE (val sampleHSV VALUE)
  * calcHSVCT_PDF tData class' COMPACTNESS sampleC.

(** The two lines one scoring of a class prints; the first ends with the
    texture density. *)
Definition posterior_lines (tData : list TrainingItem) (class' : string)
    (sampleHSV : CvScalar) (sampleC texture : float) : list Output :=
  posterior_output class'
    (calcHSVCT_PDF tData class' HUE (val sampleHSV HUE))
    (calcHSVCT_PDF tData class' SATURATION (val sampleHSV SATURATION))
    (calcHSVCT_PDF tData class' VALUE (val sampleHSV VALUE))
    (calcHSVCT_PDF tData class' COMPACTNESS sampleC)
    (calcHSVCT_PDF tData class' TEXTURE texture)
    (posterior_score tData class' sampleHSV sampleC).

(** The pair and the lines of one candidate class. *)
Definition posterior_entry (tData : list TrainingItem) (sampleHSV : CvScalar)
    (sampleC : float) (r : HSV_Range) : string * float :=
  (class r, posterior_score tData (class r) sampleHSV sampleC).

Definition candidate_lines (tData : list TrainingItem) (sampleHSV : CvScalar)
    (sampleC texture : float) (r : HSV_Range) : list Output :=
  posterior_lines tData (class r) sampleHSV sampleC texture.
End PosteriorVocabulary.

(** A score that is a non-negative number, or at least not a negative one. *)
Definition nonnegative (x : float) : Prop := (0 <=? x) = true.
Definition never_negative (x : float) : Prop :=
  is_nan x = true \/ (0 <=? x) = true.

(** ** Classes of doubles *)

(** Strictly positive: a positive finite number or plus infinity. *)
Definition SFpos (x : spec_float) : bool :=
  match x with
  | S754_infinity false | S754_finite false _ _ => true
  | _ => false
  end.

(** Not negative: a not-a-number, a zero of either sign, or positive. *)
Definition SFnotneg (x : spec_float) : bool :=
  match x with
  | S754_infinity true | S754_finite true _ _ => false
  | _ => true
  end.

(** A not-a-number, or the sign bit is clear. *)
Definition SFclear (x : spec_float) : bool :=
  match x with
  | S754_zero true | S754_infinity true | S754_finite true _ _ => false
  | _ => true
  end.

(** A zero of either sign, or a not-a-number: what absorbs a product. *)
Definition SFnull (x : spec_float) : bool :=
  match x with
  | S754_zero _ | S754_nan => true
  | _ => false
  end.

(** A double that compares equal to zero, or is a not-a-number. *)
Definition zero_or_nan (x : float) : Prop :=
  (x =? 0) = true \/ is_nan x = true.

(** [q] shifted left by [k] bits. *)
Definition shl (q : positive) (k : Z) : positive :=
  match k with
  | Z.pos p => Pos.iter xO q p
  | _ => q
  end.

(** Case analysis on a double: its class and its sign. *)
Ltac sf_cases x :=
  let mx := fresh "mx" in
  let ex := fresh "ex" in
  destruct x as [[]|[]| |[] mx ex].

(** ** Sample data *)

Definition item (name : string) (h' s' v' c' t' : float) : TrainingItem :=
  mkTrainingItem name h' s' v' c' t'.

(** Three apples with hues 10, 20, 30. *)
Definition apples : list TrainingItem :=
  [item "apple" 10 200 180 14 3;
   item "apple" 20 210 170 15 4;
   item "apple" 30 190 190 16 5].

(** The same apples, the first without a compactness measure. *)
Definition apples_c0 : list TrainingItem :=
  [item "apple" 10 200 180 0 3;
   item "apple" 20 210 170 15 4;
   item "apple" 30 190 190 16 5].

(** Every hue is 50. *)
Definition flat_hue : list TrainingItem :=
  [item "plum" 50 100 90 12 2;
   item "plum" 50 110 80 13 3].

Definition range (name : string) : HSV_Range :=
  mkRange name 0 0 0 0 0 0 0 0.

Definition seven_classes : list HSV_Range :=
  map range
    ["apple"; "banana"; "orange"; "pear"; "plum"; "lemon"; "lime"]%string.

(** * Facts about binary64 arithmetic

    The primitive operations are specified through [Prim2SF]; the facts
    below are those the program's guards and divisions rest on. *)

Section Classification.

Lemma Prim2SF_zero : Prim2SF 0 = S754_zero false.
Proof. reflexivity. Qed.

Lemma Prim2SF_one : Prim2SF 1 = S754_finite false 4503599627370496 (-52).
Proof. reflexivity. Qed.

Lemma Prim2SF_neg_one :
  Prim2SF (-1) = S754_finite true 4503599627370496 (-52).
Proof. reflexivity. Qed.

Lemma ltb_0_pos x : (0 <? x) = SFpos (Prim2SF x).
Proof.
  rewrite ltb_spec, Prim2SF_zero.
  sf_cases (Prim2SF x); reflexivity.
Qed.

Lemma ltb_notneg x : (x <? 0) = negb (SFnotneg (Prim2SF x)).
Proof.
  rewrite ltb_spec, Prim2SF_zero.
  sf_cases (Prim2SF x); reflexivity.
Qed.

Lemma SFcompare_finite_refl sx m e :
  SFcompare (S754_finite sx m e) (S754_finite sx m e) = Some Eq.
Proof.
  simpl. rewrite Z.compare_refl, Pos.compare_cont_refl.
  destruct sx; reflexivity.
Qed.

Lemma is_nan_spec x :
  is_nan x = match Prim2SF x with S754_nan => true | _ => false end.
Proof.
  unfold is_nan. rewrite eqb_spec. unfold SFeqb.
  destruct (Prim2SF x) as [[]|[]| |sx m e]; try reflexivity.
  now rewrite SFcompare_finite_refl.
Qed.

Lemma SFclear_notneg x : SFclear x = true -> SFnotneg x = true.
Proof. sf_cases x; simpl; congruence. Qed.

Lemma SFpos_clear x : SFpos x = true -> SFclear x = true.
Proof. sf_cases x; simpl; congruence. Qed.

Lemma notneg_cases x :
  (x <? 0) = false -> is_nan x = true \/ (0 <=? x) = true.
Proof.
  rewrite ltb_notneg, is_nan_spec, leb_spec, Prim2SF_zero, negb_false_iff.
  sf_cases (Prim2SF x); simpl; auto; discriminate.
Qed.

Lemma leb_0_cases x :
  (0 <=? x) = true ->
  SFpos (Prim2SF x) = true \/ exists sx, Prim2SF x = S754_zero sx.
Proof.
  rewrite leb_spec, Prim2SF_zero.
  destruct (Prim2SF x) as [sx|[]| |[] m e]; simpl;
    try discriminate; eauto.
Qed.

Lemma ltb_0_leb x : (0 <? x) = true -> (0 <=? x) = true.
Proof.
  rewrite ltb_0_pos, leb_spec, Prim2SF_zero.
  sf_cases (Prim2SF x); intros H; try discriminate H; reflexivity.
Qed.

(** What fails the guard [sd > 0]: a number that is zero or less, and
    the not-a-number. *)
Lemma not_positive x :
  (x <=? 0) = true \/ is_nan x = true -> (0 <? x) = false.
Proof.
  rewrite ltb_0_pos, leb_spec, is_nan_spec, Prim2SF_zero.
  sf_cases (Prim2SF x); simpl; intros [H|H];
    try discriminate H; reflexivity.
Qed.

End Classification.

(** ** Signs of rounded results *)

Section Signs.

(** Rounding keeps the sign it is given. *)
Lemma round_aux_sign sx m e l :
  match binary_round_aux prec emax sx m e l with
  | S754_nan => True
  | S754_zero s0 | S754_infinity s0 | S754_finite s0 _ _ => s0 = sx
  end.
Proof.
  unfold binary_round_aux.
  destruct (shr_fexp prec emax m e l) as [r1 e1].
  destruct (shr_fexp prec emax _ e1 loc_Exact) as [r2 e2].
  destruct (shr_m r2); auto.
  destruct (e2 <=? emax - prec)%Z; auto.
Qed.

Lemma round_aux_clear m e l :
  SFclear (binary_round_aux prec emax false m e l) = true.
Proof.
  generalize (round_aux_sign false m e l).
  destruct (binary_round_aux prec emax false m e l); simpl;
    intros; subst; reflexivity.
Qed.

Lemma SFmul_notneg x y :
  SFnotneg x = true -> SFnotneg y = true ->
  SFnotneg (SF64mul x y) = true.
Proof.
  sf_cases x; sf_cases y; simpl; try congruence; intros _ _;
    apply SFclear_notneg, round_aux_clear.
Qed.

Lemma SFmul_clear x y :
  SFclear x = true -> SFclear y = true -> SFclear (SF64mul x y) = true.
Proof.
  sf_cases x; sf_cases y; simpl; try congruence; intros _ _;
    apply round_aux_clear.
Qed.

Lemma SFdiv_one_clear y :
  SFclear y = true -> SFclear (SF64div (Prim2SF 1) y) = true.
Proof.
  rewrite Prim2SF_one.
  sf_cases y; simpl; try congruence; intros _.
  unfold SF64div, SFdiv.
  destruct (SFdiv_core_binary _ _ _ _ _ _) as [[mz ez] lz].
  apply round_aux_clear.
Qed.

Lemma mul_notneg x y :
  (x <? 0) = false -> (y <? 0) = false -> (x * y <? 0) = false.
Proof.
  rewrite !ltb_notneg, mul_spec, !negb_false_iff. apply SFmul_notneg.
Qed.

Lemma sqr_notneg x : (x * x <? 0) = false.
Proof.
  rewrite ltb_notneg, mul_spec, negb_false_iff.
  sf_cases (Prim2SF x); simpl; try reflexivity;
    apply SFclear_notneg, round_aux_clear.
Qed.

(** Zero over anything is a zero or a not-a-number, and so is its root. *)
Lemma sqrt_zero_div d : (0 <? sqrt (0 / d)) = false.
Proof.
  rewrite ltb_0_pos, sqrt_spec, div_spec, Prim2SF_zero.
  sf_cases (Prim2SF d); reflexivity.
Qed.

Lemma zero_div_pos d : (0 <? d) = true -> 0 / d = 0.
Proof.
  rewrite ltb_0_pos. intros H. apply Prim2SF_inj.
  rewrite div_spec, Prim2SF_zero. revert H.
  sf_cases (Prim2SF d); simpl; intros H; try discriminate H; reflexivity.
Qed.

(** A not-a-number goes through the arithmetic. *)
Lemma nan_sub a : nan - a = nan.
Proof. apply Prim2SF_inj. rewrite sub_spec. reflexivity. Qed.

Lemma nan_mul_l a : nan * a = nan.
Proof. apply Prim2SF_inj. rewrite mul_spec. reflexivity. Qed.

Lemma nan_mul_r a : a * nan = nan.
Proof.
  apply Prim2SF_inj. rewrite mul_spec.
  change (Prim2SF nan) with S754_nan. sf_cases (Prim2SF a); reflexivity.
Qed.

Lemma nan_div_l a : nan / a = nan.
Proof. apply Prim2SF_inj. rewrite div_spec. reflexivity. Qed.

End Signs.

(** ** Rounding a positive mantissa

    Adding two positive doubles never yields a zero: a sum that falls
    below the normal range is exact.  This is what makes the counter
    [divisor] positive after its first increment. *)

Section Rounding.
Local Open Scope Z_scope.

Lemma digits2_pos_size m : digits2_pos m = Pos.size m.
Proof. induction m; simpl; congruence. Qed.

Lemma digits2_pos_le m : 2 ^ (Z.pos (digits2_pos m) - 1) <= Z.pos m.
Proof.
  rewrite digits2_pos_size.
  assert (E : 2 ^ Z.pos (Pos.size m) = 2 * 2 ^ (Z.pos (Pos.size m) - 1)).
  { rewrite <- Z.pow_succ_r by lia. f_equal. lia. }
  assert (H : Z.pos (2 ^ Pos.size m) <= Z.pos m~0) by exact (Pos.size_le m).
  rewrite Pos2Z.inj_pow in H. lia.
Qed.

Lemma shr_m_of_loc m l : shr_m (shr_record_of_loc m l) = m.
Proof. destruct l as [|[]]; reflexivity. Qed.

Lemma shr_1_m r : 0 <= shr_m r -> shr_m (shr_1 r) = Z.shiftr (shr_m r) 1.
Proof.
  destruct r as [m r0 s0]; simpl.
  destruct m as [|[p|p|]|p]; intros H; try reflexivity; lia.
Qed.

Lemma iter_shr_1_m p : forall r,
  0 <= shr_m r ->
  shr_m (iter_pos shr_1 p r) = Z.shiftr (shr_m r) (Z.pos p).
Proof.
  assert (N : forall a n, 0 <= a -> 0 <= n -> 0 <= Z.shiftr a n).
  { intros a n Ha Hn. now apply Z.shiftr_nonneg. }
  induction p as [p IH|p IH|]; intros r Hr; simpl iter_pos.
  - assert (H1 : 0 <= shr_m (shr_1 r)).
    { rewrite shr_1_m by assumption. apply N; lia. }
    assert (H2 : 0 <= shr_m (iter_pos shr_1 p (shr_1 r))).
    { rewrite IH by assumption. apply N; lia. }
    rewrite IH, IH, shr_1_m by assumption.
    rewrite !Z.shiftr_shiftr by lia. f_equal. lia.
  - assert (H2 : 0 <= shr_m (iter_pos shr_1 p r)).
    { rewrite IH by assumption. apply N; lia. }
    rewrite IH, IH by assumption.
    rewrite !Z.shiftr_shiftr by lia. f_equal. lia.
  - now apply shr_1_m.
Qed.

Lemma shr_fexp_pos m e l :
  emin <= e ->
  0 < shr_m (fst (shr_fexp prec emax (Z.pos m) e l))
  /\ emin <= snd (shr_fexp prec emax (Z.pos m) e l).
Proof.
  intros He. unfold shr_fexp, shr, Zdigits2.
  destruct (fexp prec emax (Z.pos (digits2_pos m) + e) - e) as [|p|p] eqn:E;
    simpl; rewrite ?shr_m_of_loc; try (split; lia).
  split; [|lia].
  rewrite iter_shr_1_m by (rewrite shr_m_of_loc; lia).
  rewrite shr_m_of_loc, Z.shiftr_div_pow2 by lia.
  apply Z.div_str_pos. split; [apply Z.pow_pos_nonneg; lia|].
  eapply Z.le_trans; [|apply digits2_pos_le].
  apply Z.pow_le_mono_r; [lia|].
  revert E. unfold fexp, SpecFloat.emin, prec, emax in *. lia.
Qed.

Lemma round_nearest_even_pos m l : 0 < m -> 0 < round_nearest_even m l.
Proof.
  destruct l as [|[]]; simpl; try lia.
  destruct (Z.even m); lia.
Qed.

Lemma round_aux_pos m e l :
  emin <= e ->
  SFpos (binary_round_aux prec emax false (Z.pos m) e l) = true.
Proof.
  intros He. unfold binary_round_aux.
  destruct (shr_fexp_pos m e l He) as [H1 H2].
  destruct (shr_fexp prec emax (Z.pos m) e l) as [r1 e1].
  simpl in H1, H2.
  apply (round_nearest_even_pos _ (loc_of_shr_record r1)) in H1.
  destruct (round_nearest_even (shr_m r1) (loc_of_shr_record r1))
    as [|q|q]; try lia.
  destruct (shr_fexp_pos q e1 loc_Exact H2) as [H3 _].
  destruct (shr_fexp prec emax (Z.pos q) e1 loc_Exact) as [r2 e2].
  simpl in H3.
  destruct (shr_m r2); try lia.
  destruct (e2 <=? emax - prec); reflexivity.
Qed.

Lemma binary_round_pos m e :
  emin <= e -> SFpos (binary_round prec emax false m e) = true.
Proof.
  intros He. unfold binary_round, shl_align.
  set (e' := fexp prec emax (Z.pos (digits2_pos m) + e)).
  assert (emin <= e') by (unfold e', fexp; lia).
  destruct (e' - e); apply round_aux_pos; assumption.
Qed.

Lemma valid_finite_emin sx m e :
  valid_binary (S754_finite sx m e) = true -> emin <= e.
Proof.
  unfold valid_binary, SpecFloat.valid_binary, bounded, canonical_mantissa.
  intros H. apply andb_prop in H. destruct H as [H _].
  apply Z.eqb_eq in H. revert H. unfold fexp. lia.
Qed.

Lemma SFadd_pos x y :
  valid_binary x = true -> valid_binary y = true ->
  SFpos x = true -> SFpos y = true -> SFpos (SF64add x y) = true.
Proof.
  sf_cases x; sf_cases y; intros Vx Vy Px Py;
    try discriminate; try reflexivity.
  apply valid_finite_emin in Vx, Vy.
  unfold SF64add, SFadd, cond_Zopp.
  destruct (shl_align mx ex (Z.min ex ex0)) as [a ea].
  destruct (shl_align mx0 ex0 (Z.min ex ex0)) as [b eb]. simpl.
  apply binary_round_pos. lia.
Qed.

(** Multiplying by -1 changes the sign and nothing else. *)
Lemma SFmul_neg_one y :
  valid_binary y = true -> SF64mul (Prim2SF (-1)) y = SFopp y.
Proof.
  rewrite Prim2SF_neg_one.
  destruct y as [sy|sy| |sy my ey]; try reflexivity.
  intros V.
  unfold valid_binary, SpecFloat.valid_binary, bounded,
    canonical_mantissa in V.
  apply andb_prop in V. destruct V as [C B]. apply Z.eqb_eq in C.
  unfold SF64mul, SFmul, binary_round_aux.
  change (xorb true sy) with (negb sy).
  assert (S1 : shr_fexp prec emax (Z.pos (4503599627370496 * my))
                 (-52 + ey) loc_Exact
               = ({| shr_m := Z.pos my; shr_r := false; shr_s := false |},
                  ey)).
  { unfold shr_fexp, Zdigits2.
    assert (D : fexp prec emax
                  (Z.pos (digits2_pos (4503599627370496 * my))
                   + (-52 + ey)) - (-52 + ey) = 52).
    { replace (Z.pos (digits2_pos (4503599627370496 * my)) + (-52 + ey))
        with (Z.pos (digits2_pos my) + ey).
      - rewrite C. ring.
      - cbn [Pos.mul digits2_pos]. rewrite !Pos2Z.inj_succ. ring. }
    rewrite D. cbn [shr shr_record_of_loc iter_pos shr_1 Pos.mul orb].
    f_equal. ring. }
  rewrite S1. cbn [shr_m loc_of_shr_record round_nearest_even].
  assert (S2 : shr_fexp prec emax (Z.pos my) ey loc_Exact
               = ({| shr_m := Z.pos my; shr_r := false; shr_s := false |},
                  ey)).
  { unfold shr_fexp, Zdigits2. rewrite C, Z.sub_diag. reflexivity. }
  rewrite S2. cbn [shr_m]. rewrite B. reflexivity.
Qed.

(** *** Exact results

    A mantissa of at most 53 bits, shifted, is rounded to itself. *)

Lemma digits2_pos_iter q p :
  Z.pos (digits2_pos (Pos.iter xO q p)) = Z.pos (digits2_pos q) + Z.pos p.
Proof.
  induction p using Pos.peano_ind.
  - simpl. lia.
  - rewrite Pos.iter_succ. cbn [digits2_pos]. lia.
Qed.

Lemma digits2_pos_shl q k :
  0 <= k -> Z.pos (digits2_pos (shl q k)) = Z.pos (digits2_pos q) + k.
Proof.
  destruct k as [|p|p]; intros H; simpl; try lia.
  apply digits2_pos_iter.
Qed.

Lemma Zpos_iter q p : Z.pos (Pos.iter xO q p) = Z.pos q * 2 ^ Z.pos p.
Proof.
  induction p using Pos.peano_ind.
  - simpl. lia.
  - rewrite Pos.iter_succ, Pos2Z.inj_succ, Z.pow_succ_r by lia.
    rewrite Pos2Z.inj_xO, IHp. ring.
Qed.

Lemma Zpos_shl q k : 0 <= k -> Z.pos (shl q k) = Z.pos q * 2 ^ k.
Proof.
  destruct k as [|p|p]; intros H; simpl shl; try lia.
  apply Zpos_iter.
Qed.

Lemma shl_shl q j k : 0 <= j -> 0 <= k -> shl (shl q j) k = shl q (j + k).
Proof.
  intros Hj Hk. apply Pos2Z.inj.
  rewrite !Zpos_shl, Z.pow_add_r by lia. ring.
Qed.

Lemma shr_1_even r c :
  shr_r r = false -> shr_s r = false -> 0 <= c -> shr_m r = 2 * c ->
  shr_1 r = {| shr_m := c; shr_r := false; shr_s := false |}.
Proof.
  destruct r as [m r0 s0]; cbn [shr_r shr_s shr_m]. intros -> -> Hc E.
  destruct m as [|[p|p|]|p]; cbn [shr_1 orb]; try lia; f_equal; lia.
Qed.

Lemma shr_exact n : forall r c,
  shr_r r = false -> shr_s r = false -> 0 <= c ->
  shr_m r = c * 2 ^ Z.pos n ->
  iter_pos shr_1 n r = {| shr_m := c; shr_r := false; shr_s := false |}.
Proof.
  induction n as [n IH|n IH|]; intros r c Hr Hs Hc E; simpl iter_pos.
  - assert (P : 0 <= 2 ^ Z.pos n) by (apply Z.pow_nonneg; lia).
    assert (A1 : 0 <= c * 2 ^ Z.pos n)
      by (apply Z.mul_nonneg_nonneg; assumption).
    assert (A2 : 0 <= c * 2 ^ Z.pos n * 2 ^ Z.pos n)
      by (apply Z.mul_nonneg_nonneg; assumption).
    assert (E2 : shr_m r = 2 * (c * 2 ^ Z.pos n * 2 ^ Z.pos n)).
    { rewrite E. replace (Z.pos n~1) with (Z.pos n + Z.pos n + 1) by lia.
      rewrite !Z.pow_add_r by lia. change (2 ^ 1) with 2. ring. }
    rewrite (shr_1_even r _ Hr Hs A2 E2).
    rewrite (IH {| shr_m := c * 2 ^ Z.pos n * 2 ^ Z.pos n;
                   shr_r := false; shr_s := false |}
               (c * 2 ^ Z.pos n) eq_refl eq_refl A1 eq_refl).
    now apply IH.
  - assert (P : 0 <= 2 ^ Z.pos n) by (apply Z.pow_nonneg; lia).
    assert (A1 : 0 <= c * 2 ^ Z.pos n)
      by (apply Z.mul_nonneg_nonneg; assumption).
    assert (E2 : shr_m r = c * 2 ^ Z.pos n * 2 ^ Z.pos n).
    { rewrite E. replace (Z.pos n~0) with (Z.pos n + Z.pos n) by lia.
      rewrite Z.pow_add_r by lia. ring. }
    rewrite (IH r (c * 2 ^ Z.pos n) Hr Hs A1 E2).
    now apply IH.
  - apply shr_1_even; auto. rewrite E. change (2 ^ 1) with 2. ring.
Qed.

Lemma shr_fexp_53 m e :
  Z.pos (digits2_pos m) = 53 -> emin <= e ->
  shr_fexp prec emax (Z.pos m) e loc_Exact
  = ({| shr_m := Z.pos m; shr_r := false; shr_s := false |}, e).
Proof.
  intros D He. unfold shr_fexp, Zdigits2. rewrite D.
  replace (fexp prec emax (53 + e) - e) with 0; [reflexivity|].
  unfold fexp, SpecFloat.emin, prec, emax in *. lia.
Qed.

Lemma round_aux_53 sx m e :
  Z.pos (digits2_pos m) = 53 -> emin <= e -> e <= emax - prec ->
  binary_round_aux prec emax sx (Z.pos m) e loc_Exact = S754_finite sx m e.
Proof.
  intros D He Hm. unfold binary_round_aux.
  rewrite shr_fexp_53 by assumption.
  cbn [shr_m loc_of_shr_record round_nearest_even].
  rewrite shr_fexp_53 by assumption. cbn [shr_m].
  now rewrite (proj2 (Z.leb_le _ _) Hm).
Qed.

Lemma binary_round_shl sx q j e :
  0 <= j ->
  Z.pos (digits2_pos q) <= 53 ->
  emin <= e + j + Z.pos (digits2_pos q) - 53 ->
  e + j + Z.pos (digits2_pos q) <= emax ->
  binary_round prec emax sx (shl q j) e
  = S754_finite sx (shl q (53 - Z.pos (digits2_pos q)))
      (e + j + Z.pos (digits2_pos q) - 53).
Proof.
  set (d := Z.pos (digits2_pos q)). intros Hj Hd Hlo Hhi.
  assert (D53 : Z.pos (digits2_pos (shl q (53 - d))) = 53).
  { rewrite digits2_pos_shl by lia. fold d. lia. }
  unfold binary_round, shl_align.
  rewrite digits2_pos_shl by assumption. fold d.
  replace (fexp prec emax (d + j + e)) with (e + j + d - 53)
    by (unfold fexp, SpecFloat.emin, prec, emax in *; lia).
  destruct (e + j + d - 53 - e) as [|n|n] eqn:E.
  - replace (shl q j) with (shl q (53 - d)) by (f_equal; lia).
    replace e with (e + j + d - 53) at 1 by lia.
    apply round_aux_53; unfold prec in *; lia.
  - (* the mantissa is too long: shifted right *)
    unfold binary_round_aux.
    assert (S1 : shr_fexp prec emax (Z.pos (shl q j)) e loc_Exact
                 = ({| shr_m := Z.pos (shl q (53 - d));
                       shr_r := false; shr_s := false |}, e + j + d - 53)).
    { unfold shr_fexp, Zdigits2. rewrite digits2_pos_shl by assumption.
      fold d.
      replace (fexp prec emax (d + j + e) - e) with (Z.pos n)
        by (unfold fexp, SpecFloat.emin, prec, emax in *; lia).
      unfold shr. f_equal; [|lia].
      apply shr_exact; try reflexivity; [lia|].
      cbn [shr_record_of_loc shr_m].
      rewrite !Zpos_shl by lia.
      replace j with ((53 - d) + Z.pos n) at 1 by lia.
      rewrite Z.pow_add_r by lia. ring. }
    rewrite S1. cbn [shr_m loc_of_shr_record round_nearest_even].
    rewrite shr_fexp_53 by (assumption || lia). cbn [shr_m].
    assert (B : (e + j + d - 53 <=? emax - prec) = true)
      by (apply Z.leb_le; unfold prec; lia).
    now rewrite B.
  - (* the mantissa is too short: shifted left *)
    change (Pos.iter xO (shl q j) n) with (shl (shl q j) (Z.pos n)).
    rewrite shl_shl by lia.
    replace (j + Z.pos n) with (53 - d) by lia.
    apply round_aux_53; unfold prec in *; lia.
Qed.

(** The double of a positive integer below 2^53: its 53-bit mantissa. *)
Lemma binary_normalize_small N :
  Z.pos (digits2_pos N) <= 53 ->
  binary_normalize prec emax (Z.pos N) 0 false
  = S754_finite false (shl N (53 - Z.pos (digits2_pos N)))
      (Z.pos (digits2_pos N) - 53).
Proof.
  intros D. cbn [binary_normalize].
  change N with (shl N 0) at 1.
  rewrite binary_round_shl;
    [f_equal; lia|lia|assumption
    |unfold SpecFloat.emin, prec, emax; lia|unfold emax; lia].
Qed.

Lemma digits2_pos_bound N k :
  0 <= k -> Z.pos N < 2 ^ k -> Z.pos (digits2_pos N) <= k.
Proof.
  intros Hk H.
  destruct (Z.le_gt_cases (Z.pos (digits2_pos N)) k) as [L|L]; [assumption|].
  exfalso. pose proof (digits2_pos_le N) as B.
  assert (2 ^ k <= 2 ^ (Z.pos (digits2_pos N) - 1))
    by (apply Z.pow_le_mono_r; lia).
  lia.
Qed.

Lemma binary_normalize_2_53 :
  binary_normalize prec emax (2 ^ 53) 0 false
  = S754_finite false (shl 1 52) 1.
Proof. reflexivity. Qed.

(** One more, exactly, up to 2^53. *)
Lemma SFadd_one_exact N :
  Z.pos N < 2 ^ 53 ->
  SF64add (binary_normalize prec emax (Z.pos N) 0 false) (Prim2SF 1)
  = binary_normalize prec emax (Z.pos N + 1) 0 false.
Proof.
  intros H.
  pose proof (digits2_pos_bound N 53 ltac:(lia) H) as D.
  assert (D1 : 1 <= Z.pos (digits2_pos N)) by lia.
  rewrite binary_normalize_small, Prim2SF_one by assumption.
  set (d := Z.pos (digits2_pos N)) in *.
  unfold SF64add, SFadd.
  replace (Z.min (d - 53) (-52)) with (-52) by lia.
  assert (A : shl_align (shl N (53 - d)) (d - 53) (-52) = (shl N 52, -52)).
  { unfold shl_align.
    destruct (-52 - (d - 53)) as [|n|n] eqn:E; try lia.
    - f_equal; [f_equal|]; lia.
    - change (Pos.iter xO (shl N (53 - d)) n)
        with (shl (shl N (53 - d)) (Z.pos n)).
      rewrite shl_shl by lia. f_equal. f_equal. lia. }
  assert (B : shl_align 4503599627370496 (-52) (-52)
              = (4503599627370496%positive, -52)) by reflexivity.
  rewrite A, B. cbn [fst cond_Zopp].
  assert (S : (Z.pos (shl N 52) + 4503599627370496 = Z.pos (shl (N + 1) 52))%Z).
  { rewrite !Zpos_shl by lia. rewrite Pos2Z.inj_add.
    change (2 ^ 52) with 4503599627370496. ring. }
  rewrite S. cbn [binary_normalize].
  destruct (Z.eq_dec (Z.pos N + 1) (2 ^ 53)) as [T|T].
  - (* the sum is 2^53 *)
    rewrite T, binary_normalize_2_53.
    assert (Q : shl (N + 1) 52 = shl 1 105).
    { apply Pos2Z.inj. rewrite !Zpos_shl by lia.
      rewrite Pos2Z.inj_add, T. reflexivity. }
    rewrite Q, binary_round_shl; [reflexivity|lia|simpl; lia| |];
      unfold SpecFloat.emin, prec, emax; simpl; lia.
  - change (Z.pos N + 1) with (Z.pos (N + 1)).
    assert (D' : Z.pos (digits2_pos (N + 1)) <= 53).
    { apply digits2_pos_bound; [lia|]. rewrite Pos2Z.inj_add. lia. }
    rewrite binary_normalize_small by assumption.
    rewrite binary_round_shl; [f_equal; lia|lia|assumption| |];
      unfold SpecFloat.emin, prec, emax; lia.
Qed.

End Rounding.

Lemma add_one_pos x : (0 <=? x) = true -> (0 <? x + 1) = true.
Proof.
  intros H. rewrite ltb_0_pos, add_spec.
  destruct (leb_0_cases x H) as [P|[sx E]].
  - apply SFadd_pos; auto using Prim2SF_valid.
  - rewrite E. reflexivity.
Qed.

Lemma mul_neg_one y : (-1) * y = - y.
Proof.
  apply Prim2SF_inj. rewrite mul_spec, opp_spec.
  apply SFmul_neg_one, Prim2SF_valid.
Qed.

(** ** The reference [exp] obeys the laws of [LibM] *)

Lemma ref_exp_nan : ref_exp nan = nan.
Proof. reflexivity. Qed.

Lemma ref_exp_nonneg x : (ref_exp x <? 0) = false.
Proof.
  unfold ref_exp.
  destruct (is_nan x); [reflexivity|].
  destruct (x <? -746); [reflexivity|].
  destruct (710 <? x); [reflexivity|].
  apply sqr_notneg.
Qed.

Lemma refLibM_laws : LibM_Laws refLibM.
Proof. split; [exact ref_exp_nan|exact ref_exp_nonneg]. Qed.

Lemma refLibM_pow_laws : Pow_Laws refLibM.
Proof.
  split; [reflexivity|].
  intros n _. split; [reflexivity|].
  cbn [pow refLibM]. unfold ref_pow. change (2 =? 0) with false.
  change (2 =? 1) with false. change (2 =? 2) with true. cbv iota.
  apply Prim2SF_inj. rewrite !mul_spec, opp_spec.
  sf_cases (Prim2SF (of_uint63 (Uint63.of_Z n))); reflexivity.
Qed.

(** * The statistics estimator *)

Create HintDb nb discriminated.

Section Filters.
Variable name : string.

Lemma strcmp_eqb a b : (strcmp a b =? 0)%Z = String.eqb a b.
Proof.
  unfold strcmp. destruct (String.compare a b) eqn:E.
  - apply String.compare_eq_iff in E. subst. now rewrite String.eqb_refl.
  - destruct (String.eqb_spec a b) as [->|]; [|reflexivity].
    pose proof (String.compare_antisym b b) as A.
    rewrite E in A. discriminate A.
  - destruct (String.eqb_spec a b) as [->|]; [|reflexivity].
    pose proof (String.compare_antisym b b) as A.
    rewrite E in A. discriminate A.
Qed.

(** The [if] of the mean's loop is the specification's selection. *)
Lemma Mean_valid_spec x : Mean_valid name x = spec_selected name x.
Proof.
  unfold Mean_valid, spec_selected, guard4, truthy, present.
  rewrite strcmp_eqb, !andb_assoc. reflexivity.
Qed.

(** The [if] of the deviation's loop asks for compactness on top. *)
Lemma SD_valid_Mean_valid x :
  SD_valid name x = Mean_valid name x && truthy (c x).
Proof.
  unfold SD_valid, Mean_valid.
  destruct (strcmp (fruitName x) name =? 0)%Z, (truthy (h x)),
    (truthy (s x)), (truthy (v x)), (truthy (c x)), (truthy (t x));
    reflexivity.
Qed.

Lemma filter_Mean_valid recs :
  filter (Mean_valid name) recs = filter (spec_selected name) recs.
Proof. apply filter_ext, Mean_valid_spec. Qed.

(** Where no selected record lacks compactness the two loops select the
    same records. *)
Lemma filter_SD_valid recs :
  (forall x, In x recs -> Mean_valid name x = true -> truthy (c x) = true) ->
  filter (SD_valid name) recs = filter (Mean_valid name) recs.
Proof.
  intros H. apply filter_ext_in. intros x Hx.
  rewrite SD_valid_Mean_valid.
  destruct (Mean_valid name x) eqn:E; [|reflexivity].
  now rewrite (H x Hx E).
Qed.

End Filters.

Section Loops.
Context {M : LibM}.
Variable name : string.
Variable attr : Z.

(** The mean's loop folds [Mean_add] over the selected records and
    counts them. *)
Lemma Mean_loop_filter recs : forall m d,
  Mean_loop name attr recs m d
  = (fold_left (Mean_add attr) (filter (Mean_valid name) recs) m,
     Nat.iter (List.length (filter (Mean_valid name) recs)) incr d).
Proof.
  induction recs as [|x recs IH]; intros m d; simpl; [reflexivity|].
  destruct (Mean_valid name x); rewrite IH; [|reflexivity].
  simpl List.length. now rewrite Nat.iter_succ_r.
Qed.

Lemma SD_loop_filter avg recs : forall q d,
  SD_loop name attr avg recs q d
  = (fold_left (SD_add attr avg) (filter (SD_valid name) recs) q,
     Nat.iter (List.length (filter (SD_valid name) recs)) incr d).
Proof.
  induction recs as [|x recs IH]; intros q d; simpl; [reflexivity|].
  destruct (SD_valid name x); rewrite IH; [|reflexivity].
  simpl List.length. now rewrite Nat.iter_succ_r.
Qed.

(** A record the loop's [if] rejects can be taken out of the list. *)
Lemma Mean_loop_skip x l1 l2 : forall m d,
  Mean_valid name x = false ->
  Mean_loop name attr (l1 ++ x :: l2) m d
  = Mean_loop name attr (l1 ++ l2) m d.
Proof.
  intros m d H. rewrite !Mean_loop_filter, !filter_app. simpl.
  now rewrite H.
Qed.

Lemma SD_loop_skip avg x l1 l2 : forall q d,
  SD_valid name x = false ->
  SD_loop name attr avg (l1 ++ x :: l2) q d
  = SD_loop name attr avg (l1 ++ l2) q d.
Proof.
  intros q d H. rewrite !SD_loop_filter, !filter_app. simpl.
  now rewrite H.
Qed.

Lemma calcHSVCT_Mean_skip x l1 l2 :
  Mean_valid name x = false ->
  calcHSVCT_Mean name attr (l1 ++ x :: l2)
  = calcHSVCT_Mean name attr (l1 ++ l2).
Proof.
  intros H. unfold calcHSVCT_Mean. now rewrite Mean_loop_skip.
Qed.

Lemma calcHSVCT_SD_skip x l1 l2 :
  Mean_valid name x = false ->
  calcHSVCT_SD name attr (l1 ++ x :: l2)
  = calcHSVCT_SD name attr (l1 ++ l2).
Proof.
  intros H. unfold calcHSVCT_SD.
  rewrite calcHSVCT_Mean_skip by assumption.
  rewrite SD_loop_skip; [reflexivity|].
  rewrite SD_valid_Mean_valid, H. reflexivity.
Qed.

(** Without a record that passes its [if], the deviation is the root of
    zero over zero. *)
Lemma calcHSVCT_SD_no_data recs :
  filter (SD_valid name) recs = [] -> calcHSVCT_SD name attr recs = nan.
Proof.
  intros H. unfold calcHSVCT_SD. rewrite SD_loop_filter, H. reflexivity.
Qed.

End Loops.

Section Selectors.
Context {M : LibM}.

Lemma Mean_add_selector k m x :
  Mean_add (selector k) m x = m + feature_value k x.
Proof. destruct k; reflexivity. Qed.

Lemma SD_add_selector k avg q x :
  SD_add (selector k) avg q x = q + pow2 (feature_value k x - avg).
Proof. destruct k; reflexivity. Qed.

Lemma unknown_selector_eqb attr :
  unknown_selector attr ->
  (HUE =? attr)%Z = false /\ (SATURATION =? attr)%Z = false
  /\ (VALUE =? attr)%Z = false /\ (COMPACTNESS =? attr)%Z = false
  /\ (TEXTURE =? attr)%Z = false.
Proof.
  intros (H0 & H1 & H2 & H3 & H4).
  repeat split; apply Z.eqb_neq; congruence.
Qed.

Lemma Mean_add_unknown attr m x :
  unknown_selector attr -> Mean_add attr m x = m.
Proof.
  intros H. apply unknown_selector_eqb in H.
  destruct H as (H0 & H1 & H2 & H3 & H4).
  unfold Mean_add. now rewrite H0, H1, H2, H3, H4.
Qed.

Lemma SD_add_unknown attr avg q x :
  unknown_selector attr -> SD_add attr avg q x = q.
Proof.
  intros H. apply unknown_selector_eqb in H.
  destruct H as (H0 & H1 & H2 & H3 & H4).
  unfold SD_add. now rewrite H0, H1, H2, H3, H4.
Qed.

Lemma fold_left_selector k l : forall m,
  fold_left (Mean_add (selector k)) l m
  = fold_left add (map (feature_value k) l) m.
Proof.
  induction l as [|x l IH]; intros m; simpl; [reflexivity|].
  now rewrite IH, Mean_add_selector.
Qed.

Lemma fold_left_SD_selector k avg l : forall q,
  fold_left (SD_add (selector k) avg) l q
  = fold_left add (map (fun x => pow2 (feature_value k x - avg)) l) q.
Proof.
  induction l as [|x l IH]; intros q; simpl; [reflexivity|].
  now rewrite IH, SD_add_selector.
Qed.

Lemma fold_left_unknown (f : float -> TrainingItem -> float) l :
  (forall a x, f a x = a) -> forall a, fold_left f l a = a.
Proof.
  intros Hf. induction l as [|x l IH]; intros a; simpl; [reflexivity|].
  now rewrite Hf.
Qed.

End Selectors.

Section Counting.

Lemma running_count_nonneg n : (0 <=? running_count n) = true.
Proof.
  induction n as [|n IH]; [reflexivity|].
  apply ltb_0_leb. change (running_count (S n)) with (running_count n + 1).
  now apply add_one_pos.
Qed.

(** After one increment the counter compares greater than zero, however
    long the list. *)
Lemma running_count_pos n : (0 <? running_count (S n)) = true.
Proof.
  change (running_count (S n)) with (running_count n + 1).
  apply add_one_pos, running_count_nonneg.
Qed.

(** The counter is the double of the number of increments, up to 2^53 of
    them. *)
Lemma running_count_spec n :
  (Z.of_nat n <= 2 ^ 53)%Z ->
  Prim2SF (running_count n)
  = binary_normalize prec emax (Z.of_nat n) 0 false.
Proof.
  induction n as [|n IH]; intros H; [reflexivity|].
  change (running_count (S n)) with (running_count n + 1).
  rewrite add_spec, IH by lia.
  destruct n as [|n]; [reflexivity|].
  assert (Hz : Z.of_nat (S (S n)) = (Z.of_nat (S n) + 1)%Z) by lia.
  rewrite Hz in *. clear Hz IH.
  destruct (Z.of_nat (S n)) as [|N|N] eqn:Ez; try lia.
  apply SFadd_one_exact. lia.
Qed.

Lemma running_count_of_nat n :
  (Z.of_nat n <= 2 ^ 53)%Z ->
  running_count n = of_uint63 (Uint63.of_Z (Z.of_nat n)).
Proof.
  intros H. apply Prim2SF_inj.
  rewrite running_count_spec, of_uint63_spec, Uint63.of_Z_spec by assumption.
  rewrite Z.mod_small; [reflexivity|].
  split; [lia|]. eapply Z.le_lt_trans; [exact H|reflexivity].
Qed.

(** Past 2^53 the increment is lost in the rounding. *)
Lemma running_count_saturates n :
  (2 ^ 53 <= Z.of_nat n)%Z -> running_count n = 9007199254740992.
Proof.
  induction n as [|n IH]; intros H; [simpl in H; lia|].
  destruct (Z.eq_dec (Z.of_nat (S n)) (2 ^ 53)) as [E|E].
  - rewrite running_count_of_nat by lia. rewrite E. reflexivity.
  - change (running_count (S n)) with (running_count n + 1).
    rewrite IH by lia. reflexivity.
Qed.

End Counting.

#[export] Hint Resolve running_count_pos running_count_nonneg : nb.

(** ** The mean *)

(** The quotient the mean returns once a record is selected. *)
Lemma calcHSVCT_Mean_selected name k recs x sel :
  filter (Mean_valid name) recs = x :: sel ->
  calcHSVCT_Mean name (selector k) recs
  = running_sum (map (feature_value k) (x :: sel))
    / running_count (List.length (x :: sel)).
Proof.
  intros E. unfold calcHSVCT_Mean.
  rewrite Mean_loop_filter, E, fold_left_selector.
  fold (running_count (List.length (x :: sel))).
  simpl List.length. now rewrite running_count_pos.
Qed.

Lemma calcHSVCT_Mean_no_data name attr recs :
  filter (Mean_valid name) recs = [] -> calcHSVCT_Mean name attr recs = 0.
Proof.
  intros E. unfold calcHSVCT_Mean. rewrite Mean_loop_filter, E. reflexivity.
Qed.

(** The loop against the specification's wording, selection by selection. *)
Lemma calcHSVCT_Mean_refines name k recs :
  calcHSVCT_Mean name (selector k) recs = spec_mean recs name k.
Proof.
  unfold spec_mean. rewrite <- filter_Mean_valid.
  destruct (filter (Mean_valid name) recs) as [|x sel] eqn:E.
  - now apply calcHSVCT_Mean_no_data.
  - now apply calcHSVCT_Mean_selected.
Qed.

(** C4: for every record list, class label and feature, [calcHSVCT_Mean]
    returns the sum of the feature's values over the records whose label
    matches exactly and whose validity guard passes, divided by the count
    of those records, and 0.0 when that count is zero: it is the
    specification's [mean]. *)
Theorem calcHSVCT_Mean_is_spec_mean :
  forall (recs : list TrainingItem) (name : string) (k : FeatureKind),
    calcHSVCT_Mean name (selector k) recs = spec_mean recs name k
    /\ (filter (spec_selected name) recs = [] ->
        calcHSVCT_Mean name (selector k) recs = 0)
    /\ ((Z.of_nat (List.length recs) <= 2 ^ 53)%Z ->
        running_count (List.length (filter (spec_selected name) recs))
        = double_of_count
            (List.length (filter (spec_selected name) recs))).
Proof.
  intros recs name k. split; [|split].
  - apply calcHSVCT_Mean_refines.
  - intros E. apply calcHSVCT_Mean_no_data. now rewrite filter_Mean_valid.
  - intros B. apply running_count_of_nat.
    pose proof (filter_length_le (spec_selected name) recs). lia.
Qed.

Lemma calcHSVCT_Mean_is_spec_mean_witness :
  filter (spec_selected "pear") apples = []
  /\ calcHSVCT_Mean "pear" (selector Saturation) apples = 0
  /\ (Z.of_nat (List.length apples) <= 2 ^ 53)%Z
  /\ running_count (List.length (filter (spec_selected "apple") apples))
     = double_of_count 3
  /\ calcHSVCT_Mean "apple" (selector Saturation) apples = 200.
Proof.
  destruct (calcHSVCT_Mean_is_spec_mean apples "pear" Saturation)
    as (_ & B & _).
  destruct (calcHSVCT_Mean_is_spec_mean apples "apple" Saturation)
    as (A & _ & C).
  assert (H : (Z.of_nat (List.length apples) <= 2 ^ 53)%Z)
    by (intros G; discriminate G).
  split; [reflexivity|].
  split; [exact (B eq_refl)|].
  split; [exact H|].
  split; [exact (C H)|].
  rewrite A. reflexivity.
Defined.

Example incr_saturates : incr 9007199254740992 = 9007199254740992.
Proof. reflexivity. Qed.

Example mean_10_20_30 : calcHSVCT_Mean "apple" HUE apples = 20.
Proof. reflexivity. Qed.

Example mean_unknown_class : calcHSVCT_Mean "pear" HUE apples = 0.
Proof. reflexivity. Qed.

(** ** The standard deviation *)

(** The deviation's loop in closed form: the deviations are taken from the
    mean of the records the mean selects, and summed and counted over the
    records the deviation selects. *)
Lemma calcHSVCT_SD_closed_form {M : LibM} name k recs :
  calcHSVCT_SD name (selector k) recs
  = sqrt (running_sum
            (map (fun x => pow2 (feature_value k x
                                 - calcHSVCT_Mean name (selector k) recs))
               (filter (SD_valid name) recs))
          / running_count (List.length (filter (SD_valid name) recs))).
Proof.
  unfold calcHSVCT_SD.
  now rewrite SD_loop_filter, fold_left_SD_selector.
Qed.

(** The population standard deviation, provided no selected record lacks
    compactness. *)
Lemma calcHSVCT_SD_population {M : LibM} name k recs :
  (forall x, In x recs -> Mean_valid name x = true -> truthy (c x) = true) ->
  calcHSVCT_SD name (selector k) recs = spec_standardDeviation recs name k.
Proof.
  intros H. rewrite calcHSVCT_SD_closed_form.
  rewrite (filter_SD_valid name recs H), filter_Mean_valid.
  now rewrite calcHSVCT_Mean_refines.
Qed.

Example sd_10_20_30 :
  calcHSVCT_SD (M:=refLibM) "apple" HUE apples = 8.1649658092772608
  /\ spec_standardDeviation (M:=refLibM) apples "apple" Hue
     = 8.1649658092772608.
Proof. split; reflexivity. Qed.

(** The squares the sample data needs, on every platform. *)
Lemma pow2_small_integers {M : LibM} {P : Pow_Laws M} :
  pow2 0 = 0 /\ pow2 10 = 100 /\ pow2 (-10) = 100 /\ pow2 5 = 25
  /\ pow2 (-5) = 25.
Proof.
  unfold pow2.
  pose proof (pow_small_integer 0 ltac:(lia)) as [A0 _].
  pose proof (pow_small_integer 10 ltac:(lia)) as [A10 B10].
  pose proof (pow_small_integer 5 ltac:(lia)) as [A5 B5].
  vm_compute in A0, A10, B10, A5, B5.
  repeat split; assumption.
Qed.

(** The deviation of [apples_c0], whatever the platform's [pow]. *)
Lemma calcHSVCT_SD_apples_c0 {M : LibM} {P : Pow_Laws M} :
  calcHSVCT_SD "apple" HUE apples_c0 = sqrt (100 / 2)
  /\ calcHSVCT_SD "apple" HUE (tl apples_c0) = 5
  /\ spec_standardDeviation apples_c0 "apple" Hue = 8.1649658092772608.
Proof.
  destruct pow2_small_integers as (P0 & P10 & N10 & P5 & N5).
  unfold pow2 in *.
  repeat split; cbv -[pow]; rewrite ?P0, ?P10, ?N10, ?P5, ?N5; reflexivity.
Qed.

(** C1: with no record passing the filter of [calcHSVCT_SD] the function
    does not return 0.0 or a sentinel: it returns [sqrt(0.0/0.0)], the
    not-a-number, here for a class without training records. *)
Theorem calcHSVCT_SD_no_record_is_nan :
  forall M : LibM,
    filter (SD_valid "pear") apples = []
    /\ calcHSVCT_SD "pear" HUE apples = nan
    /\ is_nan (calcHSVCT_SD "pear" HUE apples) = true
    /\ calcHSVCT_Mean "pear" HUE apples = 0.
Proof. intros M. repeat split; reflexivity. Qed.

(** C5: a record without compactness is averaged by [calcHSVCT_Mean] and
    left out by the loop of [calcHSVCT_SD]: on [apples_c0] the mean of the
    hues is 20 over three records, the deviation is the root of
    (0 + 100) / 2 over two of them, and the population standard deviation
    of the three is the root of 200 / 3. *)
Theorem calcHSVCT_SD_other_subset :
  filter (Mean_valid "apple") apples_c0 = apples_c0
  /\ filter (SD_valid "apple") apples_c0 = tl apples_c0
  /\ calcHSVCT_Mean "apple" HUE apples_c0 = 20
  /\ calcHSVCT_SD (M:=refLibM) "apple" HUE apples_c0 = sqrt (100 / 2)
  /\ calcHSVCT_SD (M:=refLibM) "apple" HUE apples_c0
     = 7.0710678118654755
  /\ spec_standardDeviation (M:=refLibM) apples_c0 "apple" Hue
     = 8.1649658092772608
  /\ forall M : LibM,
       Pow_Laws M ->
       calcHSVCT_SD "apple" HUE apples_c0 = 7.0710678118654755
       /\ spec_standardDeviation apples_c0 "apple" Hue
          = 8.1649658092772608.
Proof.
  repeat split; try reflexivity;
    destruct (@calcHSVCT_SD_apples_c0 M H) as (A & _ & B);
    [rewrite A; reflexivity|exact B].
Qed.

(** ** The validity guard *)





(** * The density evaluator *)

Section DensityFacts.
Context {M : LibM} {L : LibM_Laws M} {PL : Pow_Laws M}.

(** The two branches of [calcHSVCT_PDF]. *)
Lemma calcHSVCT_PDF_guard recs name attr x :
  calcHSVCT_PDF recs name attr x
  = if 0 <? calcHSVCT_SD name attr recs
    then 1 / (calcHSVCT_SD name attr recs * sqrt (2 * CV_PI))
         * exp ((-1) * pow2 (x - calcHSVCT_Mean name attr recs)
                / (2 * pow2 (calcHSVCT_SD name attr recs)))
    else 0.
Proof. reflexivity. Qed.

Lemma calcHSVCT_PDF_no_data recs name attr x :
  filter (SD_valid name) recs = [] -> calcHSVCT_PDF recs name attr x = 0.
Proof.
  intros H. rewrite calcHSVCT_PDF_guard.
  now rewrite (calcHSVCT_SD_no_data name attr recs H).
Qed.

(** The factor in front of the exponential is never negative. *)
Lemma normaliser_clear sd :
  (0 <? sd) = true ->
  SFclear (Prim2SF (1 / (sd * sqrt (2 * CV_PI)))) = true.
Proof.
  rewrite ltb_0_pos. intros H.
  rewrite div_spec. apply SFdiv_one_clear.
  rewrite mul_spec. apply SFmul_clear; [now apply SFpos_clear|reflexivity].
Qed.

Lemma calcHSVCT_PDF_notneg recs name attr x :
  (calcHSVCT_PDF recs name attr x <? 0) = false.
Proof.
  rewrite calcHSVCT_PDF_guard.
  destruct (0 <? calcHSVCT_SD name attr recs) eqn:G; [|reflexivity].
  apply mul_notneg; [|apply exp_nonneg].
  rewrite ltb_notneg, negb_false_iff.
  now apply SFclear_notneg, normaliser_clear.
Qed.

(** A not-a-number observed where the class has a spread comes out as a
    not-a-number. *)
Lemma calcHSVCT_PDF_nan recs name attr :
  (0 <? calcHSVCT_SD name attr recs) = true ->
  is_nan (calcHSVCT_PDF recs name attr nan) = true.
Proof.
  intros G. rewrite calcHSVCT_PDF_guard, G.
  rewrite nan_sub. unfold pow2 at 1.
  now rewrite pow_nan, nan_mul_r, nan_div_l, exp_nan, nan_mul_r.
Qed.

End DensityFacts.

(** C3: whenever the standard deviation is zero, negative or the
    not-a-number of the class without data, [calcHSVCT_PDF] returns exactly
    0.0, a finite number, whatever the observed value. *)
Theorem calcHSVCT_PDF_zero_without_spread :
  forall (M : LibM) (recs : list TrainingItem) (name : string) (attr : Z)
         (x : float),
    (calcHSVCT_SD name attr recs <=? 0) = true
    \/ is_nan (calcHSVCT_SD name attr recs) = true ->
    calcHSVCT_PDF recs name attr x = 0.
Proof.
  intros M recs name attr x H.
  rewrite calcHSVCT_PDF_guard. now rewrite (not_positive _ H).
Qed.

Lemma calcHSVCT_PDF_zero_without_spread_witness :
  ((calcHSVCT_SD (M:=refLibM) "plum" HUE flat_hue <=? 0) = true
   \/ is_nan (calcHSVCT_SD (M:=refLibM) "plum" HUE flat_hue) = true)
  /\ calcHSVCT_PDF (M:=refLibM) flat_hue "plum" HUE 50 = 0
  /\ calcHSVCT_PDF (M:=refLibM) apples "pear" HUE 50 = 0.
Proof.
  split; [left; reflexivity|]. split.
  - apply (calcHSVCT_PDF_zero_without_spread refLibM flat_hue "plum" HUE 50).
    left. reflexivity.
  - apply (calcHSVCT_PDF_zero_without_spread refLibM apples "pear" HUE 50).
    right. reflexivity.
Defined.

(** C7: where the standard deviation is strictly positive, [calcHSVCT_PDF]
    returns (1 / (sd * sqrt(2 pi))) * exp(-((x - mean)^2) / (2 * sd^2)),
    with [CV_PI], the double nearest to pi, for pi, and not the five-decimal
    [PI] of the header. *)
Theorem calcHSVCT_PDF_gaussian :
  forall (M : LibM) (recs : list TrainingItem) (name : string) (attr : Z)
         (x : float),
    (0 <? calcHSVCT_SD name attr recs) = true ->
    calcHSVCT_PDF recs name attr x
    = 1 / (calcHSVCT_SD name attr recs * sqrt (2 * CV_PI))
      * exp ((- pow2 (x - calcHSVCT_Mean name attr recs))
             / (2 * pow2 (calcHSVCT_SD name attr recs)))
    /\ CV_PI = 3.1415926535897932384626433832795
    /\ (PI <? CV_PI) = true.
Proof.
  intros M recs name attr x G. split; [|split; reflexivity].
  now rewrite calcHSVCT_PDF_guard, G, mul_neg_one.
Qed.

Lemma calcHSVCT_PDF_gaussian_witness :
  (0 <? calcHSVCT_SD (M:=refLibM) "apple" HUE apples) = true
  /\ calcHSVCT_PDF (M:=refLibM) apples "apple" HUE 20
     = 1 / (calcHSVCT_SD (M:=refLibM) "apple" HUE apples
            * sqrt (2 * CV_PI))
       * ref_exp ((- ref_pow (20 - 20) 2)
                  / (2 * ref_pow
                           (calcHSVCT_SD (M:=refLibM) "apple" HUE apples)
                           2)).
Proof.
  split; [reflexivity|].
  exact (proj1 (calcHSVCT_PDF_gaussian refLibM apples "apple" HUE 20
                  eq_refl)).
Defined.

(** C10: for a selector that names none of the five feature kinds,
    [calcHSVCT_PDF] returns exactly 0.0.  The mean's loop adds nothing while
    its divisor counts the selected records, the sum of squared deviations
    stays zero, so that the standard deviation is 0, or the not-a-number
    when no record is selected, and the guard [sd > 0] fails. *)
Theorem calcHSVCT_PDF_unknown_selector :
  forall (M : LibM) (recs : list TrainingItem) (name : string) (attr : Z)
         (x : float),
    unknown_selector attr ->
    calcHSVCT_PDF recs name attr x = 0
    /\ Mean_loop name attr recs 0 0
       = (0, running_count (List.length (filter (Mean_valid name) recs)))
    /\ SD_loop name attr (calcHSVCT_Mean name attr recs) recs 0 0
       = (0, running_count (List.length (filter (SD_valid name) recs)))
    /\ calcHSVCT_SD name attr recs
       = match filter (SD_valid name) recs with
         | [] => nan
         | _ :: _ => 0
         end
    /\ (0 <? calcHSVCT_SD name attr recs) = false.
Proof.
  intros M recs name attr x U.
  assert (L1 : Mean_loop name attr recs 0 0
               = (0, running_count
                       (List.length (filter (Mean_valid name) recs)))).
  { rewrite Mean_loop_filter, fold_left_unknown; [reflexivity|].
    intros a y. now apply Mean_add_unknown. }
  assert (L2 : forall avg, SD_loop name attr avg recs 0 0
               = (0, running_count
                       (List.length (filter (SD_valid name) recs)))).
  { intros avg. rewrite SD_loop_filter, fold_left_unknown; [reflexivity|].
    intros a y. now apply SD_add_unknown. }
  assert (G : (0 <? calcHSVCT_SD name attr recs) = false).
  { unfold calcHSVCT_SD. rewrite L2. apply sqrt_zero_div. }
  repeat split; auto.
  - now rewrite calcHSVCT_PDF_guard, G.
  - unfold calcHSVCT_SD. rewrite L2.
    destruct (filter (SD_valid name) recs) as [|y sel]; [reflexivity|].
    simpl List.length. now rewrite zero_div_pos by auto with nb.
Qed.

Lemma calcHSVCT_PDF_unknown_selector_witness :
  unknown_selector 9
  /\ calcHSVCT_PDF (M:=refLibM) apples "apple" 9 20 = 0
  /\ calcHSVCT_SD (M:=refLibM) "apple" 9 apples = 0
  /\ calcHSVCT_SD (M:=refLibM) "pear" 9 apples = nan.
Proof.
  assert (U : unknown_selector 9) by (repeat split; discriminate).
  split; [exact U|].
  split; [exact (proj1 (calcHSVCT_PDF_unknown_selector refLibM apples
                          "apple" 9%Z 20 U))|].
  split; reflexivity.
Defined.

(** * The posterior aggregator and the posterior set builder *)

Section PosteriorFacts.
Context {M : LibM} {L : LibM_Laws M} {PL : Pow_Laws M}.
Variable tData : list TrainingItem.
Variable hsv : CvScalar.
Variables sC tx : float.

(** One call: the score is returned, two lines are printed. *)
Lemma calcPosterior_run cls out :
  calcPosterior tData cls hsv sC tx out
  = Some (posterior_score tData cls hsv sC,
          out ++ posterior_lines tData cls hsv sC tx).
Proof.
  unfold calcPosterior, bind, printf, ret. simpl.
  now rewrite <- app_assoc.
Qed.

Lemma posterior_score_notneg cls :
  (posterior_score tData cls hsv sC <? 0) = false.
Proof.
  unfold posterior_score.
  repeat apply mul_notneg; apply calcHSVCT_PDF_notneg.
Qed.

(** A not-a-number for the hue of the sample makes the score a
    not-a-number, for a class whose hues have a spread. *)
Lemma posterior_score_nan_hue cls :
  (0 <? calcHSVCT_SD cls HUE tData) = true ->
  val hsv HUE = nan ->
  is_nan (posterior_score tData cls hsv sC) = true.
Proof.
  intros G E. unfold posterior_score. rewrite E.
  pose proof (calcHSVCT_PDF_nan tData cls HUE G) as N.
  rewrite is_nan_spec in N.
  destruct (Prim2SF (calcHSVCT_PDF tData cls HUE nan)) eqn:P;
    try discriminate N.
  assert (Q : calcHSVCT_PDF tData cls HUE nan = nan).
  { apply Prim2SF_inj. now rewrite P. }
  now rewrite Q, !nan_mul_l.
Qed.

Let entry := posterior_entry tData hsv sC.
Let lines := candidate_lines tData hsv sC tx.

(** The [for] loop from index [i]: [done] are the entries below [i]. *)
Lemma calcPosteriors_loop_run n : forall i done rest post out,
  Z.of_nat (List.length done) = i ->
  (n <= List.length rest)%nat ->
  calcPosteriors_loop n i tData (done ++ rest) hsv sC tx post out
  = Some (post ++ map entry (firstn n rest),
          out ++ flat_map lines (firstn n rest)).
Proof.
  induction n as [|n IH]; intros i done rest post out Hi Hn.
  - simpl. unfold ret. now rewrite !app_nil_r.
  - destruct rest as [|r rest]; [simpl in Hn; lia|].
    simpl in Hn. cbn [calcPosteriors_loop]. unfold bind at 1.
    assert (I : index (done ++ r :: rest) i out = Some (r, out)).
    { unfold index.
      assert (N : (i <? 0)%Z = false) by (apply Z.ltb_ge; lia).
      rewrite N, nth_error_app2 by lia.
      replace (Z.to_nat i - List.length done)%nat with 0%nat by lia.
      reflexivity. }
    rewrite I. unfold bind at 1. rewrite calcPosterior_run.
    replace (done ++ r :: rest) with ((done ++ [r]) ++ rest)
      by now rewrite <- app_assoc.
    rewrite IH.
    + unfold addPosterior. simpl. now rewrite <- !app_assoc.
    + rewrite length_app. simpl. lia.
    + lia.
Qed.

(** An array that holds more than [NCLASSES] entries is read up to the
    seventh. *)
Lemma calcPosteriors_first_seven classes out :
  (Z.to_nat NCLASSES <= List.length classes)%nat ->
  calcPosteriors tData classes hsv sC tx out
  = Some (map entry (firstn 7 classes),
          out ++ flat_map lines (firstn 7 classes)).
Proof.
  intros H. unfold calcPosteriors.
  now rewrite (calcPosteriors_loop_run _ 0 [] classes [] out eq_refl).
Qed.

Lemma calcPosteriors_run classes out :
  List.length classes = Z.to_nat NCLASSES ->
  calcPosteriors tData classes hsv sC tx out
  = Some (map entry classes, out ++ flat_map lines classes).
Proof.
  intros H.
  rewrite calcPosteriors_first_seven by (rewrite H; apply Nat.le_refl).
  replace 7%nat with (List.length classes) by (rewrite H; reflexivity).
  now rewrite firstn_all.
Qed.

(** The loop reads past the end of an array that holds fewer entries. *)
Lemma calcPosteriors_loop_short n : forall i done rest post out,
  Z.of_nat (List.length done) = i ->
  (List.length rest < n)%nat ->
  calcPosteriors_loop n i tData (done ++ rest) hsv sC tx post out = None.
Proof.
  induction n as [|n IH]; intros i done rest post out Hi Hn; [lia|].
  cbn [calcPosteriors_loop]. unfold bind at 1.
  destruct rest as [|r rest].
  - unfold index.
    assert (N : (i <? 0)%Z = false) by (apply Z.ltb_ge; lia).
    rewrite N, app_nil_r.
    now rewrite (proj2 (nth_error_None done (Z.to_nat i))) by lia.
  - assert (I : index (done ++ r :: rest) i out = Some (r, out)).
    { unfold index.
      assert (N : (i <? 0)%Z = false) by (apply Z.ltb_ge; lia).
      rewrite N, nth_error_app2 by lia.
      replace (Z.to_nat i - List.length done)%nat with 0%nat by lia.
      reflexivity. }
    rewrite I. unfold bind at 1. rewrite calcPosterior_run.
    replace (done ++ r :: rest) with ((done ++ [r]) ++ rest)
      by now rewrite <- app_assoc.
    apply IH.
    + rewrite length_app. simpl. lia.
    + simpl in Hn. lia.
Qed.

Lemma calcPosteriors_short classes out :
  (List.length classes < Z.to_nat NCLASSES)%nat ->
  calcPosteriors tData classes hsv sC tx out = None.
Proof.
  intros H. unfold calcPosteriors.
  now apply (calcPosteriors_loop_short _ 0 [] classes [] out eq_refl).
Qed.

End PosteriorFacts.

(** C2: [calcPosterior] returns the product of exactly the four densities
    for hue, saturation, value and compactness at the sample's values.  The
    texture density is computed, it is the last number of the first line
    printed, and does not enter the product: calls that differ in the
    texture argument only return the same score. *)
Theorem calcPosterior_product_of_four :
  forall (M : LibM) (tData : list TrainingItem) (cls : string)
         (hsv : CvScalar) (sC tx : float) (out : list Output),
    let pH := calcHSVCT_PDF tData cls HUE (val hsv HUE) in
    let pS := calcHSVCT_PDF tData cls SATURATION (val hsv SATURATION) in
    let pV := calcHSVCT_PDF tData cls VALUE (val hsv VALUE) in
    let pC := calcHSVCT_PDF tData cls COMPACTNESS sC in
    let pT := calcHSVCT_PDF tData cls TEXTURE tx in
    calcPosterior tData cls hsv sC tx out
    = Some (pH * pS * pV * pC,
            out ++ posterior_output cls pH pS pV pC pT (pH * pS * pV * pC))
    /\ forall tx',
         option_map fst (calcPosterior tData cls hsv sC tx' out)
         = option_map fst (calcPosterior tData cls hsv sC tx out).
Proof.
  intros M tData cls hsv sC tx out. cbv zeta. split.
  - apply calcPosterior_run.
  - intros tx'. now rewrite !calcPosterior_run.
Qed.

(** Two textures, two texture densities, one score. *)
Example texture_is_printed_not_scored :
  calcHSVCT_PDF (M:=refLibM) apples "apple" TEXTURE 5
  <> calcHSVCT_PDF (M:=refLibM) apples "apple" TEXTURE 4
  /\ option_map fst
       (calcPosterior (M:=refLibM) apples "apple" (cvScalar 20 200 180 0)
          15 5 [])
     = option_map fst
         (calcPosterior (M:=refLibM) apples "apple" (cvScalar 20 200 180 0)
            15 4 []).
Proof.
  split; [|reflexivity].
  intros E.
  assert (F : (calcHSVCT_PDF (M:=refLibM) apples "apple" TEXTURE 5
               =? calcHSVCT_PDF (M:=refLibM) apples "apple" TEXTURE 4)
              = false) by reflexivity.
  rewrite E in F. vm_compute in F. discriminate F.
Qed.

(** C8: given the [NCLASSES] = 7 candidate classes, [calcPosteriors] scores
    each of them once, in the order of the list, and returns as many
    (label, score) pairs in that order, neither sorted nor normalised,
    whatever the scores. *)
Theorem calcPosteriors_one_per_class :
  forall (M : LibM) (tData : list TrainingItem) (classes : list HSV_Range)
         (hsv : CvScalar) (sC tx : float) (out : list Output),
    List.length classes = Z.to_nat NCLASSES ->
    calcPosteriors tData classes hsv sC tx out
    = Some (map (posterior_entry tData hsv sC) classes,
            out ++ flat_map (candidate_lines tData hsv sC tx) classes)
    /\ map fst (map (posterior_entry tData hsv sC) classes)
       = map class classes
    /\ List.length (map (posterior_entry tData hsv sC) classes) = 7%nat.
Proof.
  intros M tData classes hsv sC tx out H. split; [|split].
  - now apply calcPosteriors_run.
  - rewrite map_map. reflexivity.
  - rewrite length_map, H. reflexivity.
Qed.

Lemma calcPosteriors_one_per_class_witness :
  List.length seven_classes = Z.to_nat NCLASSES
  /\ option_map (fun r => map fst (fst r))
       (calcPosteriors (M:=refLibM) apples seven_classes
          (cvScalar 20 200 180 0) 15 5 [])
     = Some ["apple"; "banana"; "orange"; "pear"; "plum"; "lemon";
             "lime"]%string.
Proof.
  split; [reflexivity|].
  rewrite (proj1 (calcPosteriors_one_per_class refLibM apples seven_classes
                    (cvScalar 20 200 180 0) 15 5 [] eq_refl)).
  reflexivity.
Defined.

(** C9, as the code has it: the score [calcPosterior] returns is never a
    negative number.  It is a number that compares greater than or equal to
    zero, or the not-a-number; and so is every score of the collection
    [calcPosteriors] returns for seven candidate classes. *)
Theorem calcPosterior_never_negative :
  forall (M : LibM) (L : LibM_Laws M) (tData : list TrainingItem)
         (hsv : CvScalar) (sC tx : float) (out : list Output),
    (forall cls, exists post out',
        calcPosterior tData cls hsv sC tx out = Some (post, out')
        /\ never_negative post)
    /\ forall classes,
         List.length classes = Z.to_nat NCLASSES ->
         exists posts out',
           calcPosteriors tData classes hsv sC tx out = Some (posts, out')
           /\ Forall (fun e => never_negative (snd e)) posts.
Proof.
  intros M L tData hsv sC tx out. split.
  - intros cls. rewrite calcPosterior_run. do 2 eexists.
    split; [reflexivity|].
    apply notneg_cases, posterior_score_notneg.
  - intros classes H. rewrite calcPosteriors_run by assumption.
    do 2 eexists. split; [reflexivity|].
    apply Forall_forall. intros e He.
    apply in_map_iff in He. destruct He as (r & <- & _).
    apply notneg_cases, posterior_score_notneg.
Qed.

Lemma calcPosterior_never_negative_witness :
  List.length seven_classes = Z.to_nat NCLASSES
  /\ exists posts out',
       calcPosteriors (M:=refLibM) apples seven_classes
         (cvScalar 20 200 180 0) 15 5 [] = Some (posts, out')
       /\ Forall (fun e => never_negative (snd e)) posts.
Proof.
  split; [reflexivity|].
  exact (proj2 (calcPosterior_never_negative refLibM refLibM_laws apples
                  (cvScalar 20 200 180 0) 15 5 [])
           seven_classes eq_refl).
Defined.

(** C9 as stated fails: for the three apples and a sample whose hue is the
    not-a-number, the score is the not-a-number, which does not compare
    greater than or equal to zero. *)
Lemma calcPosterior_nan_sample :
  option_map fst
    (calcPosterior (M:=refLibM) apples "apple" (cvScalar nan 200 180 0) 15 5 [])
  = Some nan
  /\ ~ nonnegative nan
  /\ forall M : LibM,
       LibM_Laws M ->
       Pow_Laws M ->
       is_nan (posterior_score (M:=M) apples "apple"
                 (cvScalar nan 200 180 0) 15) = true.
Proof.
  split; [reflexivity|]. split.
  - unfold nonnegative. discriminate.
  - intros M L P. apply posterior_score_nan_hue; [|reflexivity].
    destruct pow2_small_integers as (P0 & P10 & N10 & _).
    unfold pow2 in *. cbv -[pow]. now rewrite ?P0, ?P10, ?N10.
Qed.

(** * Further properties of the functions *)

(** ** More on doubles *)

Section Absorption.

Lemma eqb_0_spec x :
  (x =? 0) = match Prim2SF x with S754_zero _ => true | _ => false end.
Proof.
  rewrite eqb_spec, Prim2SF_zero.
  sf_cases (Prim2SF x); reflexivity.
Qed.

Lemma zero_or_nan_spec x : zero_or_nan x <-> SFnull (Prim2SF x) = true.
Proof.
  unfold zero_or_nan. rewrite eqb_0_spec, is_nan_spec.
  sf_cases (Prim2SF x); simpl; intuition discriminate.
Qed.

Lemma SFmul_null_l x y : SFnull x = true -> SFnull (SF64mul x y) = true.
Proof. sf_cases x; sf_cases y; simpl; congruence. Qed.

Lemma SFmul_null_r x y : SFnull y = true -> SFnull (SF64mul x y) = true.
Proof. sf_cases x; sf_cases y; simpl; congruence. Qed.

(** A product with a zero is a zero or a not-a-number, never a positive
    number. *)
Lemma mul_zero_or_nan_l x y : zero_or_nan x -> zero_or_nan (x * y).
Proof.
  rewrite !zero_or_nan_spec, mul_spec. apply SFmul_null_l.
Qed.

Lemma mul_zero_or_nan_r x y : zero_or_nan y -> zero_or_nan (x * y).
Proof.
  rewrite !zero_or_nan_spec, mul_spec. apply SFmul_null_r.
Qed.

(** A square root is never negative. *)
Lemma sqrt_notneg x : (sqrt x <? 0) = false.
Proof.
  rewrite ltb_notneg, sqrt_spec, negb_false_iff.
  sf_cases (Prim2SF x); try reflexivity.
  unfold SF64sqrt, SFsqrt.
  destruct (SFsqrt_core_binary _ _ _ _) as [[mz ez] lz].
  apply SFclear_notneg, round_aux_clear.
Qed.

End Absorption.

(** ** What the statistics depend on *)

Section Dependence.
Context {M : LibM}.
Variable name : string.
Variable attr : Z.

Lemma filter_SD_of_Mean recs :
  filter (SD_valid name) recs
  = filter (fun x => truthy (c x)) (filter (Mean_valid name) recs).
Proof.
  induction recs as [|x recs IH]; [reflexivity|].
  simpl. rewrite SD_valid_Mean_valid.
  destruct (Mean_valid name x); simpl; [|exact IH].
  destruct (truthy (c x)); now rewrite IH.
Qed.

Lemma calcHSVCT_Mean_ext l l' :
  filter (Mean_valid name) l = filter (Mean_valid name) l' ->
  calcHSVCT_Mean name attr l = calcHSVCT_Mean name attr l'.
Proof.
  intros E. unfold calcHSVCT_Mean. now rewrite !Mean_loop_filter, E.
Qed.

Lemma calcHSVCT_SD_ext l l' :
  filter (Mean_valid name) l = filter (Mean_valid name) l' ->
  calcHSVCT_SD name attr l = calcHSVCT_SD name attr l'.
Proof.
  intros E. unfold calcHSVCT_SD.
  rewrite (calcHSVCT_Mean_ext l l' E), !SD_loop_filter.
  now rewrite !filter_SD_of_Mean, E.
Qed.

Lemma Mean_valid_other_label x :
  fruitName x <> name -> Mean_valid name x = false.
Proof.
  intros H. rewrite Mean_valid_spec. unfold spec_selected.
  now rewrite (proj2 (String.eqb_neq _ _) H).
Qed.

(** The divisor of either loop: the counter after as many increments as
    records pass the [if]. *)
Lemma Mean_loop_divisor recs :
  snd (Mean_loop name attr recs 0 0)
  = running_count (List.length (filter (Mean_valid name) recs)).
Proof. now rewrite Mean_loop_filter. Qed.

Lemma SD_loop_divisor avg recs :
  snd (SD_loop name attr avg recs 0 0)
  = running_count (List.length (filter (SD_valid name) recs)).
Proof. now rewrite SD_loop_filter. Qed.

End Dependence.

(** X1: the standard deviation [calcHSVCT_SD] returns is never a negative
    number, for any list, label and selector: it is a not-a-number or
    compares greater than or equal to zero, so that the guard [sd > 0] of
    the density fails for a zero and for a not-a-number only. *)
Theorem calcHSVCT_SD_never_negative :
  forall (M : LibM) (recs : list TrainingItem) (name : string) (attr : Z),
    never_negative (calcHSVCT_SD name attr recs)
    /\ ((0 <? calcHSVCT_SD name attr recs) = false ->
        zero_or_nan (calcHSVCT_SD name attr recs)).
Proof.
  intros M recs name attr.
  assert (N : (calcHSVCT_SD name attr recs <? 0) = false).
  { unfold calcHSVCT_SD.
    destruct (SD_loop name attr _ recs 0 0) as [q d]. apply sqrt_notneg. }
  split; [now apply notneg_cases|].
  intros G. apply zero_or_nan_spec.
  rewrite ltb_notneg, negb_false_iff in N. rewrite ltb_0_pos in G.
  revert N G. sf_cases (Prim2SF (calcHSVCT_SD name attr recs));
    simpl; congruence.
Qed.

Lemma calcHSVCT_SD_never_negative_witness :
  (0 <? calcHSVCT_SD (M:=refLibM) "plum" HUE flat_hue) = false
  /\ zero_or_nan (calcHSVCT_SD (M:=refLibM) "plum" HUE flat_hue).
Proof.
  split; [reflexivity|].
  exact (proj2 (calcHSVCT_SD_never_negative refLibM flat_hue "plum" HUE)
           eq_refl).
Defined.

(** X2: the mean, the standard deviation and the density of a class depend
    on the training list only through the records that pass the [if] of
    the mean's loop, in their order: records of other classes and records
    with a zero hue, saturation, value or texture can be added, removed or
    moved without changing any of the three. *)
Theorem statistics_depend_on_selected_records :
  forall (M : LibM) (name : string) (attr : Z) (l l' : list TrainingItem)
         (x : float),
    filter (Mean_valid name) l = filter (Mean_valid name) l' ->
    calcHSVCT_Mean name attr l = calcHSVCT_Mean name attr l'
    /\ calcHSVCT_SD name attr l = calcHSVCT_SD name attr l'
    /\ calcHSVCT_PDF l name attr x = calcHSVCT_PDF l' name attr x.
Proof.
  intros M name attr l l' x E.
  pose proof (calcHSVCT_Mean_ext name attr l l' E) as A.
  pose proof (calcHSVCT_SD_ext name attr l l' E) as B.
  repeat split; try assumption.
  rewrite !calcHSVCT_PDF_guard. now rewrite A, B.
Qed.

Lemma statistics_depend_on_selected_records_witness :
  filter (Mean_valid "apple") (item "plum" 50 100 90 12 2 :: apples)
  = filter (Mean_valid "apple")
      (apples ++ [item "apple" 0 1 1 1 1; item "pear" 7 7 7 7 7])
  /\ calcHSVCT_SD (M:=refLibM) "apple" SATURATION (item "plum" 50 100 90 12 2 :: apples)
     = calcHSVCT_SD (M:=refLibM) "apple" SATURATION
         (apples ++ [item "apple" 0 1 1 1 1; item "pear" 7 7 7 7 7]).
Proof.
  split; [reflexivity|].
  exact (proj1 (proj2 (statistics_depend_on_selected_records refLibM "apple"
                         SATURATION (item "plum" 50 100 90 12 2 :: apples)
                         (apples ++ [item "apple" 0 1 1 1 1;
                                     item "pear" 7 7 7 7 7])
                         0 eq_refl))).
Defined.

(** X3: a record of another class, wherever it stands in the training
    list, changes neither the mean, nor the standard deviation, nor the
    density of a class. *)
Theorem other_class_record_is_ignored :
  forall (M : LibM) (name : string) (attr : Z) (r : TrainingItem)
         (l1 l2 : list TrainingItem) (x : float),
    fruitName r <> name ->
    calcHSVCT_Mean name attr (l1 ++ r :: l2)
    = calcHSVCT_Mean name attr (l1 ++ l2)
    /\ calcHSVCT_SD name attr (l1 ++ r :: l2)
       = calcHSVCT_SD name attr (l1 ++ l2)
    /\ calcHSVCT_PDF (l1 ++ r :: l2) name attr x
       = calcHSVCT_PDF (l1 ++ l2) name attr x.
Proof.
  intros M name attr r l1 l2 x H.
  apply Mean_valid_other_label in H.
  pose proof (calcHSVCT_Mean_skip name attr r l1 l2 H) as A.
  pose proof (calcHSVCT_SD_skip name attr r l1 l2 H) as B.
  repeat split; try assumption.
  rewrite !calcHSVCT_PDF_guard. now rewrite A, B.
Qed.

Lemma other_class_record_is_ignored_witness :
  fruitName (item "Apple" 99 99 99 99 99) <> "apple"%string
  /\ calcHSVCT_Mean "apple" HUE
       ([item "apple" 10 200 180 14 3]
        ++ item "Apple" 99 99 99 99 99 :: tl apples)
     = 20.
Proof.
  assert (H : fruitName (item "Apple" 99 99 99 99 99) <> "apple"%string)
    by discriminate.
  split; [exact H|].
  rewrite (proj1 (other_class_record_is_ignored refLibM "apple" HUE
                    (item "Apple" 99 99 99 99 99)
                    [item "apple" 10 200 180 14 3] (tl apples) 0 H)).
  reflexivity.
Defined.

(** ** Classes without data, zero densities *)

Section Unscored.
Context {M : LibM}.

Lemma posterior_score_no_data tData cls hsv sC :
  filter (SD_valid cls) tData = [] ->
  posterior_score tData cls hsv sC = 0.
Proof.
  intros H. unfold posterior_score.
  now rewrite !(calcHSVCT_PDF_no_data tData cls _ _ H).
Qed.

Lemma posterior_score_absorbs tData cls hsv sC :
  zero_or_nan (calcHSVCT_PDF tData cls HUE (val hsv HUE))
  \/ zero_or_nan (calcHSVCT_PDF tData cls SATURATION (val hsv SATURATION))
  \/ zero_or_nan (calcHSVCT_PDF tData cls VALUE (val hsv VALUE))
  \/ zero_or_nan (calcHSVCT_PDF tData cls COMPACTNESS sC) ->
  zero_or_nan (posterior_score tData cls hsv sC).
Proof.
  unfold posterior_score. intros [H|[H|[H|H]]].
  - now apply mul_zero_or_nan_l, mul_zero_or_nan_l, mul_zero_or_nan_l.
  - now apply mul_zero_or_nan_l, mul_zero_or_nan_l, mul_zero_or_nan_r.
  - now apply mul_zero_or_nan_l, mul_zero_or_nan_r.
  - now apply mul_zero_or_nan_r.
Qed.

Lemma map_entry_no_data tData hsv sC classes :
  (forall r, In r classes -> filter (SD_valid (class r)) tData = []) ->
  map (posterior_entry tData hsv sC) classes
  = map (fun r => (class r, 0)) classes.
Proof.
  intros H. apply map_ext_in. intros r Hr. unfold posterior_entry.
  now rewrite (posterior_score_no_data _ _ _ _ (H r Hr)).
Qed.

(** The entries and the lines go through the labels only. *)
Lemma map_entry_labels tData hsv sC classes :
  map (posterior_entry tData hsv sC) classes
  = map (fun n => (n, posterior_score tData n hsv sC)) (map class classes).
Proof. now rewrite map_map. Qed.

Lemma flat_map_lines_labels tData hsv sC tx classes :
  flat_map (candidate_lines tData hsv sC tx) classes
  = flat_map (fun n => posterior_lines tData n hsv sC tx)
      (map class classes).
Proof.
  induction classes as [|r classes IH]; [reflexivity|].
  simpl. now rewrite IH.
Qed.

Lemma calcPosteriors_labels tData hsv sC tx out classes classes' :
  map class classes = map class classes' ->
  calcPosteriors tData classes hsv sC tx out
  = calcPosteriors tData classes' hsv sC tx out.
Proof.
  intros E.
  assert (L : List.length classes = List.length classes').
  { rewrite <- (length_map class classes), E. apply length_map. }
  destruct (Nat.le_gt_cases (Z.to_nat NCLASSES) (List.length classes))
    as [G|G].
  - rewrite !calcPosteriors_first_seven by (rewrite <- ?L; exact G).
    rewrite !map_entry_labels, !flat_map_lines_labels, <- !firstn_map.
    now rewrite E.
  - rewrite !calcPosteriors_short by (rewrite <- ?L; exact G).
    reflexivity.
Qed.

End Unscored.

(** X4: for a class without a training record that passes the filter of
    the standard deviation (an unknown label, an empty training list), the
    density is 0.0 for every selector and observed value, and
    [calcPosterior] returns the score 0.0. *)
Theorem class_without_data_scores_zero :
  forall (M : LibM) (tData : list TrainingItem) (cls : string)
         (hsv : CvScalar) (sC tx : float) (out : list Output),
    filter (SD_valid cls) tData = [] ->
    (forall attr x, calcHSVCT_PDF tData cls attr x = 0)
    /\ option_map fst (calcPosterior tData cls hsv sC tx out) = Some 0.
Proof.
  intros M tData cls hsv sC tx out H. split.
  - intros attr x. now apply calcHSVCT_PDF_no_data.
  - rewrite calcPosterior_run. simpl.
    now rewrite posterior_score_no_data.
Qed.

Lemma class_without_data_scores_zero_witness :
  filter (SD_valid "pear") apples = []
  /\ option_map fst
       (calcPosterior (M:=refLibM) apples "pear" (cvScalar 20 200 180 0)
          15 5 [])
     = Some 0.
Proof.
  split; [reflexivity|].
  exact (proj2 (class_without_data_scores_zero refLibM apples "pear"
                  (cvScalar 20 200 180 0) 15 5 [] eq_refl)).
Defined.

(** X5: when none of the seven candidate classes has a training record
    that passes the filter, as with the empty training list,
    [calcPosteriors] returns every label, in order, with the score 0.0. *)
Theorem calcPosteriors_all_zero_without_data :
  forall (M : LibM) (tData : list TrainingItem) (classes : list HSV_Range)
         (hsv : CvScalar) (sC tx : float) (out : list Output),
    List.length classes = Z.to_nat NCLASSES ->
    (forall r, In r classes -> filter (SD_valid (class r)) tData = []) ->
    option_map fst (calcPosteriors tData classes hsv sC tx out)
    = Some (map (fun r => (class r, 0)) classes).
Proof.
  intros M tData classes hsv sC tx out L H.
  rewrite calcPosteriors_run by assumption. simpl.
  now rewrite map_entry_no_data.
Qed.

Lemma calcPosteriors_all_zero_without_data_witness :
  List.length seven_classes = Z.to_nat NCLASSES
  /\ (forall r, In r seven_classes -> filter (SD_valid (class r)) [] = [])
  /\ option_map fst
       (calcPosteriors (M:=refLibM) [] seven_classes (cvScalar 20 200 180 0)
          15 5 [])
     = Some (map (fun r => (class r, 0)) seven_classes).
Proof.
  assert (H : forall r, In r seven_classes ->
                        filter (SD_valid (class r)) [] = [])
    by (intros r _; reflexivity).
  split; [reflexivity|]. split; [exact H|].
  exact (calcPosteriors_all_zero_without_data refLibM [] seven_classes
           (cvScalar 20 200 180 0) 15 5 [] eq_refl H).
Defined.

(** X6: [calcPosteriors] reads the label of a candidate class and nothing
    else of it: two arrays with the same labels, whatever their threshold
    ranges, give the same result and the same output. *)
Theorem calcPosteriors_reads_labels_only :
  forall (M : LibM) (tData : list TrainingItem)
         (classes classes' : list HSV_Range) (hsv : CvScalar)
         (sC tx : float) (out : list Output),
    map class classes = map class classes' ->
    calcPosteriors tData classes hsv sC tx out
    = calcPosteriors tData classes' hsv sC tx out.
Proof.
  intros M tData classes classes' hsv sC tx out E.
  now apply calcPosteriors_labels.
Qed.

Lemma calcPosteriors_reads_labels_only_witness :
  map class seven_classes
  = map class (map (fun r => mkRange (class r) 0 10 170 180 50 255 50 255)
                 seven_classes)
  /\ calcPosteriors (M:=refLibM) apples seven_classes
       (cvScalar 20 200 180 0) 15 5 []
     = calcPosteriors (M:=refLibM) apples
         (map (fun r => mkRange (class r) 0 10 170 180 50 255 50 255)
            seven_classes)
         (cvScalar 20 200 180 0) 15 5 [].
Proof.
  split; [reflexivity|].
  exact (calcPosteriors_reads_labels_only refLibM apples seven_classes
           (map (fun r => mkRange (class r) 0 10 170 180 50 255 50 255)
              seven_classes)
           (cvScalar 20 200 180 0) 15 5 [] eq_refl).
Defined.

(** X7: [calcPosteriors] stops at [NCLASSES]: of an array that holds more
    than seven candidate classes the entries after the seventh are never
    read, neither scored nor printed. *)
Theorem calcPosteriors_ignores_past_seventh :
  forall (M : LibM) (tData : list TrainingItem)
         (classes more : list HSV_Range) (hsv : CvScalar) (sC tx : float)
         (out : list Output),
    List.length classes = Z.to_nat NCLASSES ->
    calcPosteriors tData (classes ++ more) hsv sC tx out
    = calcPosteriors tData classes hsv sC tx out.
Proof.
  intros M tData classes more hsv sC tx out L.
  rewrite !calcPosteriors_first_seven
    by (rewrite ?length_app, L; simpl; lia).
  replace 7%nat with (List.length classes + 0)%nat
    by (rewrite L; reflexivity).
  rewrite firstn_app_2. simpl. now rewrite app_nil_r, Nat.add_0_r, firstn_all.
Qed.

Lemma calcPosteriors_ignores_past_seventh_witness :
  List.length seven_classes = Z.to_nat NCLASSES
  /\ calcPosteriors (M:=refLibM) apples (seven_classes ++ [range "kiwi"])
       (cvScalar 20 200 180 0) 15 5 []
     = calcPosteriors (M:=refLibM) apples seven_classes
         (cvScalar 20 200 180 0) 15 5 [].
Proof.
  split; [reflexivity|].
  exact (calcPosteriors_ignores_past_seventh refLibM apples seven_classes
           [range "kiwi"] (cvScalar 20 200 180 0) 15 5 [] eq_refl).
Defined.

(** X8: [calcPosteriors] does not look at the extent of the array: given
    fewer than [NCLASSES] candidate classes its loop indexes past the last
    one, and the call has no result. *)
Theorem calcPosteriors_needs_seven_classes :
  forall (M : LibM) (tData : list TrainingItem) (classes : list HSV_Range)
         (hsv : CvScalar) (sC tx : float) (out : list Output),
    (List.length classes < Z.to_nat NCLASSES)%nat ->
    calcPosteriors tData classes hsv sC tx out = None.
Proof.
  intros M tData classes hsv sC tx out H.
  now apply calcPosteriors_short.
Qed.

Lemma calcPosteriors_needs_seven_classes_witness :
  (List.length (firstn 6 seven_classes) < Z.to_nat NCLASSES)%nat
  /\ calcPosteriors (M:=refLibM) apples (firstn 6 seven_classes)
       (cvScalar 20 200 180 0) 15 5 [] = None.
Proof.
  assert (H : (List.length (firstn 6 seven_classes)
               < Z.to_nat NCLASSES)%nat) by (simpl; lia).
  split; [exact H|].
  exact (calcPosteriors_needs_seven_classes refLibM apples
           (firstn 6 seven_classes) (cvScalar 20 200 180 0) 15 5 [] H).
Defined.

(** X9: where every record the mean selects has a compactness that is not
    zero, the two loops select the same records and [calcHSVCT_SD] is the
    population standard deviation of the feature: the square root of the
    average squared deviation from [calcHSVCT_Mean], without Bessel's
    correction. *)
Theorem calcHSVCT_SD_is_population_sd :
  forall (M : LibM) (recs : list TrainingItem) (name : string)
         (k : FeatureKind),
    (forall x, In x recs -> Mean_valid name x = true ->
               truthy (c x) = true) ->
    filter (SD_valid name) recs = filter (spec_selected name) recs
    /\ calcHSVCT_SD name (selector k) recs
       = spec_standardDeviation recs name k
    /\ calcHSVCT_SD name (selector k) recs
       = sqrt (running_sum
                 (map (fun x => pow2 (feature_value k x
                                      - calcHSVCT_Mean name (selector k)
                                          recs))
                    (filter (spec_selected name) recs))
               / running_count
                   (List.length (filter (spec_selected name) recs))).
Proof.
  intros M recs name k H.
  assert (F : filter (SD_valid name) recs
              = filter (spec_selected name) recs).
  { now rewrite (filter_SD_valid name recs H), filter_Mean_valid. }
  split; [exact F|]. split.
  - now apply calcHSVCT_SD_population.
  - now rewrite calcHSVCT_SD_closed_form, F.
Qed.

Lemma calcHSVCT_SD_is_population_sd_witness :
  (forall x, In x apples -> Mean_valid "apple" x = true ->
             truthy (c x) = true)
  /\ calcHSVCT_SD (M:=refLibM) "apple" (selector Hue) apples
     = sqrt ((pow2 (M:=refLibM) (10 - 20) + pow2 (M:=refLibM) (20 - 20)
              + pow2 (M:=refLibM) (30 - 20)) / 3).
Proof.
  assert (H : forall x, In x apples -> Mean_valid "apple" x = true ->
                        truthy (c x) = true).
  { intros x [<-|[<-|[<-|[]]]] _; reflexivity. }
  split; [exact H|].
  rewrite (proj1 (proj2 (calcHSVCT_SD_is_population_sd refLibM apples
                           "apple" Hue H))).
  reflexivity.
Defined.

(** X10: [calcHSVCT_PDF] never returns a negative number, whatever the
    list, the label, the selector and the observed value: the density is
    a not-a-number or compares greater than or equal to zero (for an [exp]
    that returns no negative number). *)
Theorem calcHSVCT_PDF_never_negative :
  forall (M : LibM) (L : LibM_Laws M) (recs : list TrainingItem)
         (name : string) (attr : Z) (x : float),
    never_negative (calcHSVCT_PDF recs name attr x).
Proof.
  intros M L recs name attr x.
  apply notneg_cases, calcHSVCT_PDF_notneg.
Qed.

Lemma calcHSVCT_PDF_never_negative_witness :
  never_negative (calcHSVCT_PDF (M:=refLibM) apples "apple" HUE (-40)).
Proof.
  exact (calcHSVCT_PDF_never_negative refLibM refLibM_laws apples "apple"
           HUE (-40)).
Defined.

(** X11: the observed value is not validated: where the class has a
    positive standard deviation, the density of a not-a-number is a
    not-a-number (for an [exp] through which a not-a-number goes). *)
Theorem calcHSVCT_PDF_of_nan_is_nan :
  forall (M : LibM) (L : LibM_Laws M) (P : Pow_Laws M)
         (recs : list TrainingItem) (name : string) (attr : Z),
    (0 <? calcHSVCT_SD name attr recs) = true ->
    is_nan (calcHSVCT_PDF recs name attr nan) = true.
Proof.
  intros M L P recs name attr G. now apply calcHSVCT_PDF_nan.
Qed.

Lemma calcHSVCT_PDF_of_nan_is_nan_witness :
  (0 <? calcHSVCT_SD (M:=refLibM) "apple" COMPACTNESS apples) = true
  /\ is_nan (calcHSVCT_PDF (M:=refLibM) apples "apple" COMPACTNESS nan)
     = true.
Proof.
  split; [reflexivity|].
  exact (calcHSVCT_PDF_of_nan_is_nan refLibM refLibM_laws refLibM_pow_laws
           apples "apple" COMPACTNESS eq_refl).
Defined.

(** X12: for a selector that names none of the five feature kinds
    [calcHSVCT_Mean] returns exactly 0.0, with or without records of the
    class: nothing is added, and zero over the count is zero. *)
Theorem calcHSVCT_Mean_unknown_selector :
  forall (recs : list TrainingItem) (name : string) (attr : Z),
    unknown_selector attr -> calcHSVCT_Mean name attr recs = 0.
Proof.
  intros recs name attr U. unfold calcHSVCT_Mean.
  rewrite Mean_loop_filter, fold_left_unknown
    by (intros a y; now apply Mean_add_unknown).
  destruct (0 <? Nat.iter _ incr 0) eqn:G; [|reflexivity].
  now apply zero_div_pos.
Qed.

Lemma calcHSVCT_Mean_unknown_selector_witness :
  unknown_selector 200 /\ calcHSVCT_Mean "apple" 200 apples = 0.
Proof.
  assert (U : unknown_selector 200) by (repeat split; discriminate).
  split; [exact U|].
  exact (calcHSVCT_Mean_unknown_selector apples "apple" 200%Z U).
Defined.

(** X13: a density that is zero is never outweighed by the other three:
    when one of the four densities of the product is a zero (or a
    not-a-number), the score [calcPosterior] returns is a zero or a
    not-a-number, never a positive number. *)
Theorem zero_density_zeroes_the_score :
  forall (M : LibM) (tData : list TrainingItem) (cls : string)
         (hsv : CvScalar) (sC tx : float) (out : list Output),
    zero_or_nan (calcHSVCT_PDF tData cls HUE (val hsv HUE))
    \/ zero_or_nan (calcHSVCT_PDF tData cls SATURATION (val hsv SATURATION))
    \/ zero_or_nan (calcHSVCT_PDF tData cls VALUE (val hsv VALUE))
    \/ zero_or_nan (calcHSVCT_PDF tData cls COMPACTNESS sC) ->
    exists post out',
      calcPosterior tData cls hsv sC tx out = Some (post, out')
      /\ zero_or_nan post
      /\ (0 <? post) = false.
Proof.
  intros M tData cls hsv sC tx out H.
  rewrite calcPosterior_run. do 2 eexists. split; [reflexivity|].
  pose proof (posterior_score_absorbs tData cls hsv sC H) as Z.
  split; [exact Z|].
  apply zero_or_nan_spec in Z. rewrite ltb_0_pos.
  revert Z. sf_cases (Prim2SF (posterior_score tData cls hsv sC));
    simpl; congruence.
Qed.

Lemma zero_density_zeroes_the_score_witness :
  zero_or_nan (calcHSVCT_PDF (M:=refLibM) flat_hue "plum" HUE 50)
  /\ (0 <? calcHSVCT_PDF (M:=refLibM) flat_hue "plum" SATURATION 105)
     = true
  /\ exists post out',
       calcPosterior (M:=refLibM) flat_hue "plum" (cvScalar 50 105 85 0)
         12 2 [] = Some (post, out')
       /\ zero_or_nan post
       /\ (0 <? post) = false.
Proof.
  assert (Z : zero_or_nan (calcHSVCT_PDF (M:=refLibM) flat_hue "plum" HUE
                             50)) by (left; reflexivity).
  split; [exact Z|]. split; [reflexivity|].
  exact (zero_density_zeroes_the_score refLibM flat_hue "plum"
           (cvScalar 50 105 85 0) 12 2 [] (or_introl Z)).
Defined.

(** X14: in a list of at most 2^53 records the divisor of either loop is
    the exact number of records that pass its [if], converted to a double:
    the count of the mean's loop, and the count of the deviation's loop. *)
Theorem divisor_is_the_exact_count :
  forall (M : LibM) (recs : list TrainingItem) (name : string) (attr : Z)
         (avg : float),
    (Z.of_nat (List.length recs) <= 2 ^ 53)%Z ->
    snd (Mean_loop name attr recs 0 0)
    = double_of_count (List.length (filter (Mean_valid name) recs))
    /\ snd (SD_loop name attr avg recs 0 0)
       = double_of_count (List.length (filter (SD_valid name) recs)).
Proof.
  intros M recs name attr avg B.
  rewrite Mean_loop_divisor, SD_loop_divisor.
  pose proof (filter_length_le (Mean_valid name) recs).
  pose proof (filter_length_le (SD_valid name) recs).
  split; apply running_count_of_nat; lia.
Qed.

Lemma divisor_is_the_exact_count_witness :
  (Z.of_nat (List.length apples_c0) <= 2 ^ 53)%Z
  /\ snd (Mean_loop "apple" HUE apples_c0 0 0) = 3
  /\ snd (SD_loop (M:=refLibM) "apple" HUE 20 apples_c0 0 0) = 2.
Proof.
  assert (H : (Z.of_nat (List.length apples_c0) <= 2 ^ 53)%Z)
    by (intros G; discriminate G).
  destruct (divisor_is_the_exact_count refLibM apples_c0 "apple" HUE 20 H)
    as [A B].
  split; [exact H|]. split; [rewrite A|rewrite B]; reflexivity.
Defined.
